(** * GPU acquisition through concurrency limits: a model of [flows/demo3/main.py]

    The development embeds the acquisition protocol of the demo3 flows:
    the parsing of the worker configuration ([get_worker_gpu_ids]), the
    [acquire_gpu] generator together with the context-manager protocol that
    drives it, the three simulated work units and the two flows built from
    them.

    Conventions.
    - Python [str] values are [string]s, a character standing for a code
      point below 256.  [int] is modelled on all of them, the other string
      functions on ASCII text.
    - Python [int] values are [Z]; [int(str)] refuses more digits than
      CPython's limit for integer string conversion, 4300 unless configured
      otherwise.
    - [contextlib] differs between versions of CPython in what it does with
      a generator that yields again; the [Interpreter] class carries the
      choice and the model is generic in it.
    - [os.environ] is a [gmap string string].
    - The limiter service reached through [prefect.concurrency.sync.concurrency]
      is an interface ([LimiterClient]); the model is generic in it.
    - Every observable action (log record, limiter call, printed line) is an
      [event]; a computation returns the events it emitted, in order. *)

From Stdlib Require Import ZArith Ascii String List.
From stdpp Require Import base numbers option list strings gmap pretty sorting.

Local Open Scope Z_scope.
Local Open Scope string_scope.
Local Open Scope list_scope.

#[local] Arguments String.append !_ _ / : simpl nomatch.

(** ** Exceptions *)

(** The exception classes the module can observe.  [InvalidLiteral tok] is
    the [ValueError] raised by [int(tok)]; its message is
    ["invalid literal for int() with base 10: "] followed by [repr(tok)],
    or the one about the digit limit when [tok] has too many digits.
    [OtherException cls] stands for an instance of any class that is none
    of the classes listed before it. *)
Inductive exn : Type :=
  | ValueError (msg : string)
  | InvalidLiteral (tok : string)
  | RuntimeError (msg : string)
  | AcquireConcurrencySlotTimeoutError
  | ConcurrencySlotAcquisitionError
  | OtherException (cls : string).

Global Instance exn_eq_dec : EqDecision exn.
Proof. solve_decision. Defined.

(** [isinstance(e, ValueError)]. *)
Definition is_value_error (e : exn) : bool :=
  match e with
  | ValueError _ | InvalidLiteral _ => true
  | _ => false
  end.

(** The tuple of the [except] clause at line 110. *)
Definition is_contention (e : exn) : bool :=
  match e with
  | AcquireConcurrencySlotTimeoutError | ConcurrencySlotAcquisitionError => true
  | _ => false
  end.

(** How a probe can fail, seen from the service. *)
Inductive probe_failure : Type :=
  | SlotOccupied                 (* no slot came free within the timeout *)
  | ServiceUnreachable           (* the request did not reach the service *)
  | ServiceError (status : Z).   (* the service answered with an error status *)

(** The exception [prefect.concurrency.sync.concurrency] raises for a failed
    probe: the timeout has a class of its own, and every other failure of
    the request is wrapped in [ConcurrencySlotAcquisitionError]. *)
Definition client_exception (f : probe_failure) : exn :=
  match f with
  | SlotOccupied => AcquireConcurrencySlotTimeoutError
  | ServiceUnreachable | ServiceError _ => ConcurrencySlotAcquisitionError
  end.

Inductive result (A : Type) : Type :=
  | Ret (a : A)
  | Raise (e : exn).
Arguments Ret {A} a.
Arguments Raise {A} e.

(** ** Strings: [str.split], [int], [str.upper] *)

Module PyStr.

(** [s.split(sep)] for a one-character separator: never returns the empty
    list, and keeps empty fields. *)
Fixpoint split (sep : ascii) (s : string) : list string :=
  match s with
  | EmptyString => [EmptyString]
  | String c r =>
      if Ascii.eqb c sep then EmptyString :: split sep r
      else match split sep r with
           | h :: t => String c h :: t
           | [] => [String c EmptyString]
           end
  end.

(** [sep.join(l)]. *)
Fixpoint join (sep : string) (l : list string) : string :=
  match l with
  | [] => EmptyString
  | [x] => x
  | x :: r => x +:+ sep +:+ join sep r
  end.

(** ASCII characters for which [str.isspace] holds; [str.split()] cuts at
    them. *)
Definition is_space (c : ascii) : bool :=
  let n := nat_of_ascii c in
  ((9 <=? n)%nat && (n <=? 13)%nat) || ((28 <=? n)%nat && (n <=? 32)%nat).

Definition is_digit (c : ascii) : bool :=
  let n := nat_of_ascii c in (48 <=? n)%nat && (n <=? 57)%nat.

Definition digit_val (c : ascii) : Z := Z.of_nat (nat_of_ascii c) - 48.

(** The blanks [int] skips at both ends: the C [isspace] set, which
    leaves out the separators 28 to 31, and the two blanks among the code
    points from 128 to 255, the next-line character and the no-break
    space. *)
Definition is_blank (c : ascii) : bool :=
  let n := nat_of_ascii c in
  ((9 <=? n)%nat && (n <=? 13)%nat) || (n =? 32)%nat
  || (n =? 133)%nat || (n =? 160)%nat.

Fixpoint skip_blanks (s : string) : string :=
  match s with
  | String c r => if is_blank c then skip_blanks r else s
  | EmptyString => EmptyString
  end.

Fixpoint drop_trailing_blanks (s : string) : string :=
  match s with
  | EmptyString => EmptyString
  | String c r =>
      match drop_trailing_blanks r with
      | EmptyString => if is_blank c then EmptyString else String c EmptyString
      | r' => String c r'
      end
  end.

Definition trim_blanks (s : string) : string :=
  drop_trailing_blanks (skip_blanks s).

(** Decimal digits with single underscores allowed between digits.
    [after_digit] tells whether the previous character was a digit. *)
Fixpoint digits_go (acc : Z) (after_digit : bool) (s : string) : option Z :=
  match s with
  | EmptyString => if after_digit then Some acc else None
  | String c r =>
      if is_digit c then digits_go (10 * acc + digit_val c) true r
      else if Ascii.eqb c "_" then
        if after_digit then digits_go acc false r else None
      else None
  end.

(** [sys.get_int_max_str_digits()], by default. *)
Definition max_str_digits : nat := 4300.

Fixpoint count_digits (s : string) : nat :=
  match s with
  | EmptyString => O
  | String c r => if is_digit c then S (count_digits r) else count_digits r
  end.

(** The digits of a literal after its sign: more digits than the limit are
    refused, leading zeros counted and underscores not. *)
Definition digits_capped (s : string) : option Z :=
  if (max_str_digits <? count_digits s)%nat then None else digits_go 0 false s.

(** [int(s)] in base 10: surrounding blanks are dropped, one sign is
    allowed and nothing but digits and single underscores between digits
    after it; [None] stands for the [ValueError]. *)
Definition int (s : string) : option Z :=
  match trim_blanks s with
  | String "-" r => Z.opp <$> digits_capped r
  | String "+" r => digits_capped r
  | t => digits_capped t
  end.

(** [str(z)], also the rendering of an int inside an f-string. *)
Definition str (z : Z) : string := pretty z.

Definition upper_char (c : ascii) : ascii :=
  let n := nat_of_ascii c in
  if (97 <=? n)%nat && (n <=? 122)%nat then ascii_of_nat (n - 32) else c.

(** [s.upper()]. *)
Fixpoint upper (s : string) : string :=
  match s with
  | EmptyString => EmptyString
  | String c r => String (upper_char c) (upper r)
  end.

(** [sub in s]. *)
Fixpoint contains (sub s : string) : bool :=
  String.prefix sub s ||
  match s with
  | EmptyString => false
  | String _ r => contains sub r
  end.

(** [s.count(c)] for a one-character [c]. *)
Fixpoint count_char (c : ascii) (s : string) : nat :=
  match s with
  | EmptyString => O
  | String a r => if Ascii.eqb a c then S (count_char c r) else count_char c r
  end.

(** [s.split()] without argument: the maximal runs of characters that are
    not whitespace, in order. *)
Fixpoint words (s : string) : list string :=
  match s with
  | EmptyString => []
  | String c r =>
      if is_space c then words r
      else match r with
           | EmptyString => [String c EmptyString]
           | String c' _ =>
               if is_space c' then String c EmptyString :: words r
               else match words r with
                    | h :: t => String c h :: t
                    | [] => [String c EmptyString]
                    end
           end
  end.

(** [sorted(l)] on strings: the order is the one of the character codes. *)
Definition sorted (l : list string) : list string := merge_sort String.le l.

(** Predicates used to state facts about the functions above. *)

(** [all_chars p s]: every character of [s] satisfies [p]. *)
Fixpoint all_chars (p : ascii -> bool) (s : string) : bool :=
  match s with
  | EmptyString => true
  | String c r => p c && all_chars p r
  end.

(** The value of a digit string read after the prefix value [acc]. *)
Fixpoint value (acc : Z) (ds : string) : Z :=
  match ds with
  | EmptyString => acc
  | String c r => value (10 * acc + digit_val c) r
  end.

Definition not_comma (c : ascii) : bool := negb (Ascii.eqb c ",").


Definition not_blank (c : ascii) : bool := negb (is_blank c).

(** [integer_token t z]: the token [t] is the integer [z] written in
    decimal, with an optional sign and at most [max_str_digits] digits;
    blanks may surround it. *)
Definition integer_token (t : string) (z : Z) : Prop :=
  exists pre sign ds post,
    t = pre +:+ ((sign +:+ ds) +:+ post)
    /\ all_chars is_blank pre = true /\ all_chars is_blank post = true
    /\ (sign = "" \/ sign = "+" \/ sign = "-")
    /\ ds <> "" /\ all_chars is_digit ds = true
    /\ (String.length ds <= max_str_digits)%nat
    /\ z = (if decide (sign = "-") then - value 0 ds else value 0 ds).

End PyStr.

(** ** Worker configuration *)

(** [[int(id_) for id_ in toks]]: the first token [int] rejects raises. *)
Fixpoint parse_ids (toks : list string) : result (list Z) :=
  match toks with
  | [] => Ret []
  | t :: r =>
      match PyStr.int t with
      | None => Raise (InvalidLiteral t)
      | Some z =>
          match parse_ids r with
          | Ret zs => Ret (z :: zs)
          | Raise e => Raise e
          end
      end
  end.

(** Lines 68-71.  [os.environ.get("WORKER_GPU_IDS", "")] is falsy both when
    the variable is missing and when it is the empty string. *)
Definition get_worker_gpu_ids (environ : gmap string string) : result (list Z) :=
  let raw_gpu_ids := default "" (environ !! "WORKER_GPU_IDS") in
  if decide (raw_gpu_ids = "") then
    Raise (ValueError "WORKER_GPU_IDS environment variable is not set.")
  else parse_ids (PyStr.split "," raw_gpu_ids).

(** ** Observable actions *)

(** The log records of the module, one constructor per [logger.info] call;
    the fields are the values substituted into the f-string. *)
Inductive log_record : Type :=
  | LogWorkerGpus (worker_id : string) (gpu_ids : list Z)     (* line 97 *)
  | LogLimitNames (names : list (Z * string))                 (* line 98 *)
  | LogAcquired (gpu_id : Z) (worker_id : string)             (* line 106 *)
  | LogReleased (gpu_id : Z) (worker_id : string)             (* line 108 *)
  | LogBusy (gpu_id : Z)                                      (* line 111 *)
  | LogSimulating (gpu_id : Z) (seconds : Z)                  (* line 57 *)
  | LogStarted (unit_name : string) (gpu_id : Z)
  | LogFinished (unit_name : string) (gpu_id : Z).

(** [EvAcquire name occupy timeout_ms failure] is one call entering
    [concurrency(name, occupy=.., timeout_seconds=..)]; [failure = None]
    means the slot was obtained.  [EvRelease] is the release performed when
    that context is left. *)
Inductive event : Type :=
  | EvLog (r : log_record)
  | EvAcquire (name : string) (occupy : Z) (timeout_ms : Z) (failure : option exn)
  | EvRelease (name : string) (occupy : Z)
  | EvSleep (seconds : Z)
  | EvPrint (line : string).

Global Instance log_record_eq_dec : EqDecision log_record.
Proof. solve_decision. Defined.
Global Instance event_eq_dec : EqDecision event.
Proof. solve_decision. Defined.

(** ** The limiter service *)

(** What [concurrency] needs from the service: a bounded attempt to occupy
    slots of a named limit, which either succeeds or raises, and the release
    of slots obtained earlier. *)
Class LimiterClient (L : Type) : Type := {
  try_acquire : string -> Z -> Z -> L -> option exn * L;
  release_slots : string -> Z -> L -> L
}.

(** An in-memory limiter: a table of capacity-one slots. *)
Inductive slot : Type :=
  | SlotFree
  | SlotBusy
  | SlotFault (e : exn).

#[export] Instance table_limiter : LimiterClient (gmap string slot) := {
  try_acquire name _ _ tbl :=
    match tbl !! name with
    | Some SlotFree => (None, <[name := SlotBusy]> tbl)
    | Some SlotBusy => (Some AcquireConcurrencySlotTimeoutError, tbl)
    | Some (SlotFault e) => (Some e, tbl)
    | None => (Some ConcurrencySlotAcquisitionError, tbl)
    end;
  release_slots name _ tbl := <[name := SlotFree]> tbl
}.

(** A scripted limiter: the answers of the service, in call order.  It
    represents a service whose state is changed by other workers between
    calls. *)
#[export] Instance scripted_limiter : LimiterClient (list (option exn)) := {
  try_acquire _ _ _ script :=
    match script with
    | [] => (Some AcquireConcurrencySlotTimeoutError, [])
    | a :: rest => (a, rest)
    end;
  release_slots _ _ script := script
}.

(** ** The interpreter *)

(** [contextlib.contextmanager] is part of the interpreter's library and
    changed with CPython 3.12: when the generator yields again after an
    exception was thrown into it, [__exit__] closes the generator before it
    raises; up to CPython 3.11 it raises at once and the generator is closed
    only when it is collected, after the [with] statement has ended. *)
Class Interpreter : Type := { closes_unstopped_generator : bool }.

Definition cpython_3_11 : Interpreter := {| closes_unstopped_generator := false |}.

Definition cpython_3_12 : Interpreter := {| closes_unstopped_generator := true |}.

(** ** Random source *)

(** The [random] module seen as a stream of draws and a cursor. *)
Record Rng : Type := { draws : nat -> nat; cursor : nat }.

Definition rng_next (r : Rng) : nat * Rng :=
  (draws r (cursor r), {| draws := draws r; cursor := S (cursor r) |}).

(** ** Computations *)

Section Acquisition.

Context {L : Type} `{!LimiterClient L}.

(** The process state the module reads or changes. *)
Record World : Type := {
  environ : gmap string string;
  limiter : L;
  rng : Rng
}.

Definition set_limiter (l : L) (w : World) : World :=
  {| environ := environ w; limiter := l; rng := rng w |}.

Definition set_rng (r : Rng) (w : World) : World :=
  {| environ := environ w; limiter := limiter w; rng := r |}.

(** A computation runs from a state, returns a value or raises, and yields
    the events it emitted together with the state it left. *)
Definition M (A : Type) : Type := World -> result A * list event * World.

Definition ret {A} (a : A) : M A := fun w => (Ret a, [], w).

Definition raise {A} (e : exn) : M A := fun w => (Raise e, [], w).

Definition bind {A B} (m : M A) (k : A -> M B) : M B := fun w =>
  match m w with
  | (Ret a, t1, w1) => let '(r, t2, w2) := k a w1 in (r, t1 ++ t2, w2)
  | (Raise e, t1, w1) => (Raise e, t1, w1)
  end.

Definition emit (ev : event) : M unit := fun w => (Ret tt, [ev], w).

Definition lift {A} (r : result A) : M A := fun w => (r, [], w).

Definition outcome {A} (x : result A * list event * World) : result A := x.1.1.
Definition events {A} (x : result A * list event * World) : list event := x.1.2.
Definition final {A} (x : result A * list event * World) : World := x.2.

End Acquisition.

Arguments World L : clear implicits.
Arguments M L A : clear implicits.

Notation "'let*' x ':=' m 'in' k" := (bind m (fun x => k))
  (at level 10, x name, m at level 100, k at level 200).
Notation "m ';;' k" := (bind m (fun _ => k))
  (at level 100, k at level 200, right associativity).

Section Protocol.

Context {L : Type} `{!LimiterClient L} {py : Interpreter}.

Definition logger_info (r : log_record) : M L unit := emit (EvLog r).

(** *** [prefect.concurrency.sync.concurrency]

    Entering the context asks the service for the slots and raises what the
    service raises; leaving it, on any path, releases them. *)
Definition concurrency_enter (name : string) (occupy timeout_ms : Z) : M L unit :=
  fun w =>
    match try_acquire name occupy timeout_ms (limiter w) with
    | (None, l) => (Ret tt, [EvAcquire name occupy timeout_ms None], set_limiter l w)
    | (Some e, l) => (Raise e, [EvAcquire name occupy timeout_ms (Some e)], set_limiter l w)
    end.

Definition concurrency_exit (name : string) (occupy : Z) : M L unit :=
  fun w =>
    (Ret tt, [EvRelease name occupy],
     set_limiter (release_slots name occupy (limiter w)) w).

(** *** [acquire_gpu] *)

(** [f"gpu-{worker_id}-{gpu_id}"]. *)
Definition limit_name (worker_id : string) (gpu_id : Z) : string :=
  "gpu-" +:+ worker_id +:+ "-" +:+ PyStr.str gpu_id.

(** Lines 93-96: each GPU id with the name of its concurrency limit. *)
Definition limit_names (worker_id : string) (gpu_ids : list Z) : list (Z * string) :=
  map (fun gpu_id => (gpu_id, limit_name worker_id gpu_id)) gpu_ids.

(** [timeout_seconds=0.1], in milliseconds. *)
Definition probe_timeout_ms : Z := 100.

(** The generator suspended at the [yield] of line 107: the slot of
    [fr_name] is held and [fr_rest] are the candidates the [for] loop has
    not reached. *)
Record Frame : Type := {
  fr_worker : string;
  fr_gpu : Z;
  fr_name : string;
  fr_rest : list (Z * string)
}.

(** Lines 103-113, from the head of the [for] loop to the next [yield] or
    raise. *)
Fixpoint probe_loop (worker_id : string) (cands : list (Z * string)) : M L Frame :=
  match cands with
  | [] => raise (RuntimeError ("No available GPUs on worker " +:+ worker_id))
  | (gpu_id, prefect_limit_name) :: rest =>
      fun w =>
        match concurrency_enter prefect_limit_name 1 probe_timeout_ms w with
        | (Ret _, t1, w1) =>
            (Ret {| fr_worker := worker_id; fr_gpu := gpu_id;
                    fr_name := prefect_limit_name; fr_rest := rest |},
             t1 ++ [EvLog (LogAcquired gpu_id worker_id)], w1)
        | (Raise e, t1, w1) =>
            if is_contention e then
              let '(r, t2, w2) :=
                (logger_info (LogBusy gpu_id);; probe_loop worker_id rest) w1 in
              (r, t1 ++ t2, w2)
            else (Raise e, t1, w1)
        end
  end.

(** Lines 85-101 followed by the loop: the generator run up to its first
    [yield] or raise. *)
Definition acquire_gpu_start : M L Frame :=
  fun w =>
    (let* worker_id :=
       match environ w !! "WORKER_ID" with
       | Some v => ret v
       | None =>
           raise (ValueError
             "WORKER_ID environment variable is not set - cannot acquire GPU")
       end in
     let* existing_gpu_ids := lift (get_worker_gpu_ids (environ w)) in
     let prefect_concurrency_limit_names := limit_names worker_id existing_gpu_ids in
     logger_info (LogWorkerGpus worker_id existing_gpu_ids);;
     logger_info (LogLimitNames prefect_concurrency_limit_names);;
     probe_loop worker_id prefect_concurrency_limit_names) w.

(** The generator resumed by [next]: lines 108-109, then the inner context
    is left and the generator finishes. *)
Definition acquire_gpu_next (fr : Frame) : M L unit :=
  logger_info (LogReleased (fr_gpu fr) (fr_worker fr));;
  concurrency_exit (fr_name fr) 1.

(** The generator resumed by [throw(e)]: the inner context is left, which
    releases the slot and lets [e] through; the [except] clause of line 110
    then either swallows [e] and goes on with the loop, or lets it out.
    [Ret fr'] means the generator yielded again. *)
Definition acquire_gpu_throw (fr : Frame) (e : exn) : M L Frame :=
  concurrency_exit (fr_name fr) 1;;
  if is_contention e then
    logger_info (LogBusy (fr_gpu fr));;
    probe_loop (fr_worker fr) (fr_rest fr)
  else raise e.

(** The generator closed while suspended: [GeneratorExit] is raised at the
    [yield]; the inner context releases the slot and no handler applies. *)
Definition acquire_gpu_close (fr : Frame) : M L unit :=
  concurrency_exit (fr_name fr) 1.

(** *** [contextlib.contextmanager] *)

(** [__exit__] after a block that ended normally. *)
Definition exit_normal (fr : Frame) : M L unit := acquire_gpu_next fr.

(** [__exit__] after a block that raised [e]: the exception the [with]
    statement ends with, the events up to that point and the state then.
    When the generator yields again a [RuntimeError] is raised, after the
    generator was closed if the interpreter does that; otherwise the
    generator is still suspended, holding its slot, when the statement
    ends. *)
Definition exit_raising (fr : Frame) (e : exn) : World L -> exn * list event * World L :=
  fun w =>
    match acquire_gpu_throw fr e w with
    | (Raise e', t, w1) => (e', t, w1)
    | (Ret fr', t, w1) =>
        if closes_unstopped_generator then
          let '(_, t2, w2) := acquire_gpu_close fr' w1 in
          (RuntimeError "generator didn't stop after throw()", t ++ t2, w2)
        else (RuntimeError "generator didn't stop after throw()", t, w1)
    end.

(** [with acquire_gpu(logger) as gpu_id: body(gpu_id)]. *)
Definition with_acquire_gpu {A} (body : Z -> M L A) : M L A :=
  fun w =>
    match acquire_gpu_start w with
    | (Raise e, t0, w0) => (Raise e, t0, w0)
    | (Ret fr, t0, w0) =>
        match body (fr_gpu fr) w0 with
        | (Ret a, t1, w1) =>
            let '(r, t2, w2) := exit_normal fr w1 in
            (match r with Ret _ => Ret a | Raise e => Raise e end,
             t0 ++ t1 ++ t2, w2)
        | (Raise e, t1, w1) =>
            let '(e', t2, w2) := exit_raising fr e w1 in
            (Raise e', t0 ++ t1 ++ t2, w2)
        end
    end.

End Protocol.

(** ** Work units and flows *)

Section Flows.

Context {L : Type} `{!LimiterClient L} {py : Interpreter}.

(** [random.randint(a, b)], both ends included. *)
Definition randint (a b : Z) : M L Z := fun w =>
  let '(k, r) := rng_next (rng w) in
  (Ret (a + Z.of_nat k `mod` (b - a + 1)), [], set_rng r w).

(** [random.choice(seq)] on a non-empty sequence; [d] only fills the
    out-of-range case of [nth], which is not reached then. *)
Definition choice {A} (d : A) (seq : list A) : M L A := fun w =>
  let '(k, r) := rng_next (rng w) in
  (Ret (nth (k mod length seq) seq d), [], set_rng r w).

(** [time.sleep(seconds)]. *)
Definition sleep (seconds : Z) : M L unit := emit (EvSleep seconds).

(** The [for] loop of lines 62-64. *)
Fixpoint simulate_loop (n : nat) (result : Z) : M L Z :=
  match n with
  | O => ret result
  | S n' =>
      let* r := randint 0 10 in
      sleep 1;;
      simulate_loop n' (result + r)
  end.

(** Lines 55-65. *)
Definition _simulate_work (gpu_id work_for_seconds : Z) : M L Z :=
  logger_info (LogSimulating gpu_id work_for_seconds);;
  simulate_loop (Z.to_nat work_for_seconds) 0.

(** What a Python call returns to a caller that may ignore it. *)
Inductive pyval : Type :=
  | PyNone
  | PyInt (z : Z)
  | PyStr (s : string).

(** The list of line 137. *)
Definition labels : list string :=
  ["Cat"; "Dog"; "Sheep"; "Duck"; "Owl"; "Squirrel"].

(** Lines 116-125. *)
Definition pre_processing (gpu_id simulate_work_for_seconds : Z) : M L Z :=
  logger_info (LogStarted "pre_processing" gpu_id);;
  let* result := _simulate_work gpu_id simulate_work_for_seconds in
  logger_info (LogFinished "pre_processing" gpu_id);;
  ret result.

(** Lines 128-137. *)
Definition predict (gpu_id data simulate_work_for_seconds : Z) : M L string :=
  logger_info (LogStarted "prediction" gpu_id);;
  _simulate_work gpu_id simulate_work_for_seconds;;
  logger_info (LogFinished "prediction" gpu_id);;
  choice "" labels.

(** Lines 140-149: the label is printed in upper case; the function ends
    without a [return]. *)
Definition post_processing (gpu_id : Z) (pred : string)
    (simulate_work_for_seconds : Z) : M L pyval :=
  logger_info (LogStarted "post_processing" gpu_id);;
  _simulate_work gpu_id simulate_work_for_seconds;;
  logger_info (LogFinished "post_processing" gpu_id);;
  emit (EvPrint (PyStr.upper pred));;
  ret PyNone.

(** Lines 152-161: one run of the flow body. *)
Definition task_acquisition_prediction_flow : M L pyval :=
  let* data := with_acquire_gpu (fun gpu_id => pre_processing gpu_id 30) in
  let* prediction := with_acquire_gpu (fun gpu_id => predict gpu_id data 30) in
  with_acquire_gpu (fun gpu_id => post_processing gpu_id prediction 30);;
  ret PyNone.

(** Lines 164-172: one run of the flow body. *)
Definition single_acquisition_prediction_flow : M L pyval :=
  with_acquire_gpu (fun gpu_id =>
    let* data := pre_processing gpu_id 30 in
    let* prediction := predict gpu_id data 30 in
    post_processing gpu_id prediction 30);;
  ret PyNone.

End Flows.

(** * The model, continued: how runs are read *)

(** ** Reading a run *)

(** The names probed, in call order. *)
Fixpoint probed_names (t : list event) : list string :=
  match t with
  | [] => []
  | EvAcquire name _ _ _ :: r => name :: probed_names r
  | _ :: r => probed_names r
  end.

(** The answers the probes received, in call order. *)
Fixpoint probe_answers (t : list event) : list (option exn) :=
  match t with
  | [] => []
  | EvAcquire _ _ _ a :: r => a :: probe_answers r
  | _ :: r => probe_answers r
  end.

(** The sum of the timeouts of the probes: the longest the run can have
    waited for the service. *)
Fixpoint timeout_budget (t : list event) : Z :=
  match t with
  | [] => 0
  | EvAcquire _ _ ms _ :: r => ms + timeout_budget r
  | _ :: r => timeout_budget r
  end.

Definition is_lease_event (ev : event) : bool :=
  match ev with
  | EvAcquire _ _ _ None | EvRelease _ _ => true
  | _ => false
  end.

(** The slots obtained and the slots released, in order. *)
Definition lease_events (t : list event) : list event :=
  List.filter is_lease_event t.

(** Every slot obtained is released by the next lease event, and nothing
    else is released. *)
Fixpoint paired (t : list event) : bool :=
  match t with
  | [] => true
  | EvAcquire n o _ None :: EvRelease n' o' :: r =>
      bool_decide (n = n') && bool_decide (o = o') && paired r
  | _ => false
  end.

(** The lease discipline of a process, checked along a run: a slot is
    obtained only while none is held, and only the held slot is released.
    [holding] is the limit name held so far. *)
Fixpoint one_lease_at_a_time (holding : option string) (t : list event) : bool :=
  match t with
  | [] => true
  | EvAcquire n _ _ None :: r =>
      match holding with
      | None => one_lease_at_a_time (Some n) r
      | Some _ => false
      end
  | EvRelease n _ :: r =>
      match holding with
      | Some n' => bool_decide (n = n') && one_lease_at_a_time None r
      | None => false
      end
  | _ :: r => one_lease_at_a_time holding r
  end.

(** The lines written to standard output. *)
Fixpoint printed (t : list event) : list string :=
  match t with
  | [] => []
  | EvPrint line :: r => line :: printed r
  | _ :: r => printed r
  end.

(** Lease events and the start of each work unit. *)
Definition is_milestone (ev : event) : bool :=
  match ev with
  | EvAcquire _ _ _ None | EvRelease _ _ | EvLog (LogStarted _ _) => true
  | _ => false
  end.

Definition milestones (t : list event) : list event :=
  List.filter is_milestone t.

(** ** Vocabulary of the statements *)

Section Vocabulary.

Context {L : Type} `{!LimiterClient L}.

Implicit Types (w : World L) (l : L) (fr : Frame) (t : list event).

(** [contended names l]: probing [names] in order from the service state [l]
    is answered by a contention exception every time; the result is the
    service state reached. *)
Fixpoint contended (names : list string) (l : L) : option L :=
  match names with
  | [] => Some l
  | n :: r =>
      match try_acquire n 1 probe_timeout_ms l with
      | (Some e, l') => if is_contention e then contended r l' else None
      | (None, _) => None
      end
  end.

(** Every probe asks for one slot and waits at most [probe_timeout_ms]. *)
Definition probe_params_ok (ev : event) : Prop :=
  match ev with
  | EvAcquire _ o ms _ => o = 1 /\ ms = probe_timeout_ms
  | _ => True
  end.

(** The service state after the slots of [fr] are released. *)
Definition released fr w : World L :=
  set_limiter (release_slots (fr_name fr) 1 (limiter w)) w.

(** [w'] is [w] after [k] more random draws. *)
Definition drawn (k : nat) w w' : Prop :=
  environ w' = environ w /\ limiter w' = limiter w
  /\ draws (rng w') = draws (rng w)
  /\ cursor (rng w') = (k + cursor (rng w))%nat.

(** [w] after [k] more random draws, nothing else being changed. *)
Definition after_draws (k : nat) w : World L :=
  set_rng {| draws := draws (rng w); cursor := k + cursor (rng w) |} w.

(** The events of a unit that are neither lease events, unit starts nor
    printed lines. *)
Definition quiet t : Prop := milestones t = [] /\ printed t = [].

(** The label [predict] returns when it starts from the random source [r]
    with [k] draws still to be made before its own. *)
Definition label_at (k : nat) (r : Rng) : string :=
  nth (draws r (k + cursor r) mod length labels) labels "".

(** The three units run in a row, as in the body of the single scope. *)
Definition pipeline (gpu_id : Z) : M L pyval :=
  let* data := pre_processing gpu_id 30 in
  let* prediction := predict gpu_id data 30 in
  post_processing gpu_id prediction 30.

(** The label printed by a run of either flow that starts from the random
    source [r]: the draw that follows the sixty draws of the simulated work
    of the first two units. *)
Definition predicted_label (r : Rng) : string := label_at 60 r.

(** The milestones of a successful whole-pipeline run. *)
Definition single_milestones (n : string) (g : Z) : list event :=
  [EvAcquire n 1 probe_timeout_ms None;
   EvLog (LogStarted "pre_processing" g);
   EvLog (LogStarted "prediction" g);
   EvLog (LogStarted "post_processing" g);
   EvRelease n 1].

(** The milestones of a successful per-task run. *)
Definition task_milestones (n1 n2 n3 : string) (g1 g2 g3 : Z) : list event :=
  [EvAcquire n1 1 probe_timeout_ms None;
   EvLog (LogStarted "pre_processing" g1);
   EvRelease n1 1;
   EvAcquire n2 1 probe_timeout_ms None;
   EvLog (LogStarted "prediction" g2);
   EvRelease n2 1;
   EvAcquire n3 1 probe_timeout_ms None;
   EvLog (LogStarted "post_processing" g3);
   EvRelease n3 1].

End Vocabulary.

(** ** Concrete states *)

(** Worker [worker-1] with GPUs 0 and 1, against the in-memory limiter. *)
Definition env_worker_1 : gmap string string :=
  {[ "WORKER_ID" := "worker-1"; "WORKER_GPU_IDS" := "0,1" ]}.

Definition rng_0 : Rng := {| draws := fun n => n; cursor := 0 |}.

Definition world_of (env : gmap string string) (tbl : gmap string slot)
  : World (gmap string slot) :=
  {| environ := env; limiter := tbl; rng := rng_0 |}.

(** Scenario A: GPU 0 busy, GPU 1 free. *)
Definition table_A : gmap string slot :=
  {[ "gpu-worker-1-0" := SlotBusy; "gpu-worker-1-1" := SlotFree ]}.
Definition world_A := world_of env_worker_1 table_A.

(** Scenario B: both GPUs busy. *)
Definition table_B : gmap string slot :=
  {[ "gpu-worker-1-0" := SlotBusy; "gpu-worker-1-1" := SlotBusy ]}.
Definition world_B := world_of env_worker_1 table_B.

(** Both GPUs free. *)
Definition table_C : gmap string slot :=
  {[ "gpu-worker-1-0" := SlotFree; "gpu-worker-1-1" := SlotFree ]}.
Definition world_C := world_of env_worker_1 table_C.

(** The probe of GPU 0 is interrupted from the keyboard; GPU 1 is free. *)
Definition table_D : gmap string slot :=
  {[ "gpu-worker-1-0" := SlotFault (OtherException "KeyboardInterrupt");
     "gpu-worker-1-1" := SlotFree ]}.
Definition world_D := world_of env_worker_1 table_D.

(** The service cannot be reached when GPU 0 is probed; GPU 1 is free. *)
Definition table_F : gmap string slot :=
  {[ "gpu-worker-1-0" := SlotFault (client_exception ServiceUnreachable);
     "gpu-worker-1-1" := SlotFree ]}.
Definition world_F := world_of env_worker_1 table_F.

(** The worker id is set, to the empty string. *)
Definition world_E :=
  world_of {[ "WORKER_ID" := ""; "WORKER_GPU_IDS" := "0" ]}
           {[ "gpu--0" := SlotFree ]}.

(** The resource list has a token that is not an integer. *)
Definition world_G :=
  world_of {[ "WORKER_ID" := "worker-1"; "WORKER_GPU_IDS" := "0,a" ]} table_C.

(** A run of [n] zeros. *)
Fixpoint zeros (n : nat) : string :=
  match n with
  | O => EmptyString
  | S n' => String "0" (zeros n')
  end.

(** The decimal form of [10 ^ 4300]: one digit more than [int] takes. *)
Definition long_token : string := String "1" (zeros 4300).

(** A protected block that raises the timeout exception. *)
Definition block_timeout : Z -> M (gmap string slot) unit :=
  fun _ => raise AcquireConcurrencySlotTimeoutError.

(** [msg] contains the decimal form of every id of [ids]. *)
Definition names_candidates (ids : list Z) (msg : string) : bool :=
  forallb (fun g => PyStr.contains (PyStr.str g) msg) ids.

(** ** Simulated work in closed form *)

(** The sum of [n] draws of [random.randint(0, 10)] read from the stream
    [ds] at position [c]. *)
Fixpoint work_sum (n : nat) (ds : nat -> nat) (c : nat) : Z :=
  match n with
  | O => 0
  | S n' => Z.of_nat (ds c) `mod` 11 + work_sum n' ds (S c)
  end.

(** What [_simulate_work] returns for [n] seconds of work started from the
    random source [r]. *)
Definition work_value (n : nat) (r : Rng) : Z := work_sum n (draws r) (cursor r).

(** The seconds a run has slept. *)
Fixpoint slept (t : list event) : Z :=
  match t with
  | [] => 0
  | EvSleep sec :: r => sec + slept r
  | _ :: r => slept r
  end.

(** ** The bundle script: reading the output of [apt]

    [build-bundle.py] runs [apt] commands and reads package names off their
    standard output.  The two readers are modelled as functions of the
    captured output [stdout]; the command itself is outside the model. *)

Definition newline : ascii := "010"%char.

(** ASCII characters matched by [\w]. *)
Definition is_word_char (c : ascii) : bool :=
  let n := nat_of_ascii c in
  ((48 <=? n)%nat && (n <=? 57)%nat)
  || ((65 <=? n)%nat && (n <=? 90)%nat)
  || ((97 <=? n)%nat && (n <=? 122)%nat)
  || (n =? 95)%nat.

(** [re.search(r"^\w", line) is not None and ":" not in line]. *)
Definition is_dependency_line (line : string) : bool :=
  match line with
  | EmptyString => false
  | String c _ => is_word_char c
  end && negb (PyStr.contains ":" line).

(** [get_deb_package_dependencies], lines 223-228, on the output of
    [apt-cache depends]. *)
Definition get_deb_package_dependencies (stdout : string) : list string :=
  PyStr.sorted (List.filter is_dependency_line (PyStr.split newline stdout)).

(** Lines 41-45: the package an [Inst] line of [apt upgrade --simulate]
    names, if it names one. *)
Definition upgraded_package (line : string) : option string :=
  if String.prefix "Inst " line then
    match PyStr.words line with
    | _ :: package_name :: _ => Some package_name
    | _ => None
    end
  else None.

(** [get_system_update_packages], lines 39-46, on the output of
    [apt upgrade --simulate]: the set of names, sorted. *)
Definition get_system_update_packages (stdout : string) : list string :=
  PyStr.sorted (remove_dups (omap upgraded_package (PyStr.split newline stdout))).

(** * Properties *)

(** ** The string functions on examples *)

Example split_ex : PyStr.split "," "2,0,1" = ["2"; "0"; "1"].
Proof. reflexivity. Qed.

Example split_ex2 : PyStr.split "," "0,,1," = ["0"; ""; "1"; ""].
Proof. reflexivity. Qed.

Example int_ex : PyStr.int " -12_3 " = Some (-123).
Proof. reflexivity. Qed.

Example int_ex2 : PyStr.int "1__2" = None /\ PyStr.int "" = None /\ PyStr.int "- 1" = None.
Proof. repeat split. Qed.

(** A file separator is no blank for [int], a no-break space is. *)
Example int_ex3 :
  PyStr.int (String "028" "5") = None /\ PyStr.int (String "160" "5") = Some 5.
Proof. split; reflexivity. Qed.

(** The digit limit counts leading zeros and leaves the sign out. *)
Example int_ex4 :
  PyStr.int (zeros 4300) = Some 0
  /\ PyStr.int (zeros 4301) = None
  /\ PyStr.int (String "-" (zeros 4300)) = Some 0
  /\ PyStr.int long_token = None.
Proof. vm_compute. repeat split; reflexivity. Qed.

Example str_ex : PyStr.str (-30) = "-30" /\ PyStr.str 0 = "0".
Proof. split; reflexivity. Qed.

Example ids_ex :
  get_worker_gpu_ids {[ "WORKER_GPU_IDS" := "2,0,1" ]} = Ret [2; 0; 1].
Proof. vm_compute. reflexivity. Qed.

(** ** Strings and configuration parsing *)

Module PyStrFacts.
Import PyStr.

Lemma all_chars_app p a b :
  all_chars p (a +:+ b) = all_chars p a && all_chars p b.
Proof.
  induction a as [|c a IH]; simpl; [done|].
  rewrite IH. by rewrite andb_assoc.
Qed.

Lemma all_chars_impl (p q : ascii -> bool) s :
  (forall c, p c = true -> q c = true) ->
  all_chars p s = true -> all_chars q s = true.
Proof.
  intros Hpq. induction s as [|c s IH]; simpl; [done|].
  intros [Hc Hs]%andb_true_iff. rewrite (Hpq c Hc). simpl. auto.
Qed.

Lemma value_app acc a b : value acc (a +:+ b) = value (value acc a) b.
Proof. revert acc. induction a as [|c a IH]; intros acc; simpl; [done|apply IH]. Qed.

Lemma app_assoc_str (a b c : string) : (a +:+ b) +:+ c = a +:+ (b +:+ c).
Proof. induction a as [|x a IH]; simpl; [done|by rewrite IH]. Qed.

Lemma app_empty_r (a : string) : a +:+ "" = a.
Proof. induction a as [|x a IH]; simpl; [done|by rewrite IH]. Qed.

Lemma length_app_str (a b : string) :
  String.length (a +:+ b) = (String.length a + String.length b)%nat.
Proof. induction a as [|x a IH]; simpl; [done|by rewrite IH]. Qed.

(** *** [split] undoes [join] *)

Lemma split_no_comma s :
  all_chars not_comma s = true -> split "," s = [s].
Proof.
  induction s as [|c s IH]; simpl; [done|].
  intros [Hc Hs]%andb_true_iff. unfold not_comma in Hc.
  apply negb_true_iff in Hc. rewrite Hc, (IH Hs). done.
Qed.

Lemma split_app_comma s r :
  all_chars not_comma s = true ->
  split "," (s +:+ String "," r) = s :: split "," r.
Proof.
  induction s as [|c s IH]; simpl; [done|].
  intros [Hc Hs]%andb_true_iff. unfold not_comma in Hc.
  apply negb_true_iff in Hc. rewrite Hc, (IH Hs). done.
Qed.

Lemma split_join toks :
  toks <> [] ->
  Forall (fun t => all_chars not_comma t = true) toks ->
  split "," (join "," toks) = toks.
Proof.
  induction toks as [|t toks IH]; [done|].
  intros _ Hall. inversion Hall as [|? ? Ht Hts]; subst.
  destruct toks as [|t' toks].
  - simpl. by apply split_no_comma.
  - change (join "," (t :: t' :: toks))
      with (t +:+ String "," (join "," (t' :: toks))).
    rewrite split_app_comma by done. f_equal. by apply IH.
Qed.

Lemma join_nonempty toks :
  toks <> [] -> Forall (fun t => t <> "") toks -> join "," toks <> "".
Proof.
  destruct toks as [|t toks]; [done|].
  intros _ Hall. inversion Hall as [|? ? Ht _]; subst.
  destruct t as [|c t]; [done|].
  destruct toks; simpl; done.
Qed.

(** *** [int] undoes [str] *)

Lemma digits_go_digits ds : forall acc b s,
  all_chars is_digit ds = true -> ds <> "" ->
  digits_go acc b (ds +:+ s) = digits_go (value acc ds) true s.
Proof.
  induction ds as [|c ds IH]; intros acc b s Hall Hne; [done|].
  simpl in Hall. apply andb_true_iff in Hall as [Hc Hds].
  simpl. rewrite Hc.
  destruct ds as [|c' ds]; [done|].
  by apply IH.
Qed.

Lemma pretty_N_char_digit x :
  (x < 10)%N ->
  is_digit (pretty_N_char x) = true /\ digit_val (pretty_N_char x) = Z.of_N x.
Proof.
  intros Hx.
  assert (x = 0 \/ x = 1 \/ x = 2 \/ x = 3 \/ x = 4 \/ x = 5 \/ x = 6
          \/ x = 7 \/ x = 8 \/ x = 9)%N as Hcases by lia.
  repeat (destruct Hcases as [->|Hcases]; [by vm_compute|]).
  subst. by vm_compute.
Qed.

(** The digits [pretty_N_go] puts in front of its accumulator: they read
    back as the number and start with no zero. *)
Lemma pretty_N_go_digits x : forall s,
  exists ds, pretty_N_go x s = ds +:+ s
    /\ all_chars is_digit ds = true
    /\ value 0 ds = Z.of_N x
    /\ ((0 < x)%N -> ds <> "")
    /\ ((x = 0)%N -> ds = "")
    /\ ((0 < x)%N -> 10 ^ (Z.of_nat (String.length ds) - 1) <= Z.of_N x).
Proof.
  induction (N.lt_wf_0 x) as [x _ IH]; intros s.
  destruct (decide (x = 0)%N) as [->|Hx].
  - exists "". rewrite pretty_N_go_0. repeat split; try done; lia.
  - rewrite pretty_N_go_step by lia.
    destruct (IH (x `div` 10)%N) with (s := String (pretty_N_char (x `mod` 10)) s)
      as (ds & Heq & Hdig & Hval & Hne & Hzero & Hsize).
    { apply N.div_lt; lia. }
    destruct (pretty_N_char_digit (x `mod` 10)%N) as [Hd Hv].
    { apply N.mod_lt. lia. }
    exists (ds +:+ String (pretty_N_char (x `mod` 10)) "").
    rewrite Heq, app_assoc_str. simpl. split; [done|].
    rewrite all_chars_app, Hdig. simpl. rewrite Hd. split; [done|].
    rewrite value_app, Hval. simpl. rewrite Hv.
    pose proof (N.div_mod x 10) as Hdm.
    assert (Z.of_N x = 10 * Z.of_N (x `div` 10) + Z.of_N (x `mod` 10)) as Hz by lia.
    split; [lia|]. split; [intros _; by destruct ds|]. split; [lia|].
    intros _. rewrite length_app_str. simpl.
    destruct (decide (x `div` 10 = 0)%N) as [Hq|Hq].
    + rewrite (Hzero Hq). simpl.
      change (Z.of_nat 1 - 1) with 0. rewrite Z.pow_0_r. clear -Hx. lia.
    + assert (0 < x `div` 10)%N as Hpos by by apply N.neq_0_lt_0.
      specialize (Hsize Hpos). specialize (Hne Hpos).
      assert (1 <= String.length ds)%nat as Hlen by (destruct ds; [done|simpl; lia]).
      replace (Z.of_nat (String.length ds + 1) - 1)
        with (Z.succ (Z.of_nat (String.length ds) - 1)) by lia.
      rewrite Z.pow_succ_r by lia.
      assert (0 <= Z.of_N (x `mod` 10)) as Hr by apply N2Z.is_nonneg.
      revert Hsize Hz Hr.
      generalize (10 ^ (Z.of_nat (String.length ds) - 1))
        (Z.of_N (x `div` 10)) (Z.of_N (x `mod` 10)) (Z.of_N x).
      clear. intros. lia.
Qed.

Lemma str_positive (p : positive) :
  exists ds, pretty (N.pos p) = ds
    /\ all_chars is_digit ds = true /\ value 0 ds = Z.pos p /\ ds <> "".
Proof.
  destruct (pretty_N_go_digits (N.pos p) "") as (ds & Heq & Hdig & Hval & Hne & _).
  exists ds. unfold pretty, pretty_N.
  destruct (decide (N.pos p = 0%N)) as [?|_]; [done|].
  rewrite Heq, app_empty_r. repeat split; [done|by rewrite Hval|]. apply Hne. lia.
Qed.

(** A positive number below [10 ^ n] is written with at most [n] digits. *)
Lemma str_positive_length (p : positive) (n : nat) :
  Z.pos p < 10 ^ Z.of_nat n -> (String.length (pretty (N.pos p)) <= n)%nat.
Proof.
  intros Hlt.
  destruct (pretty_N_go_digits (N.pos p) "") as (ds & Heq & _ & _ & _ & _ & Hsize).
  unfold pretty, pretty_N.
  destruct (decide (N.pos p = 0%N)) as [?|_]; [done|].
  rewrite Heq, app_empty_r.
  assert (10 ^ (Z.of_nat (String.length ds) - 1) <= Z.pos p) as Hle
    by (apply Hsize; lia).
  destruct (decide (String.length ds <= n)%nat) as [|Hgt]; [done|].
  exfalso.
  assert (10 ^ Z.of_nat n <= 10 ^ (Z.of_nat (String.length ds) - 1)) as Hmono
    by (apply Z.pow_le_mono_r; lia).
  lia.
Qed.

(** The shape of [str z]: an optional minus sign, then digits. *)
Lemma str_shape (z : Z) :
  exists ds, all_chars is_digit ds = true /\ ds <> "" /\ value 0 ds = Z.abs z
    /\ str z = (if decide (z < 0) then String "-" ds else ds).
Proof.
  destruct z as [|p|p].
  - exists "0". by vm_compute.
  - destruct (str_positive p) as (ds & Heq & Hdig & Hval & Hne).
    exists ds. repeat split; [done..|].
    destruct (decide (Z.pos p < 0)); [lia|]. exact Heq.
  - destruct (str_positive p) as (ds & Heq & Hdig & Hval & Hne).
    exists ds. repeat split; [done..|].
    destruct (decide (Z.neg p < 0)); [|lia].
    unfold str, pretty, pretty_Z. by rewrite <- Heq.
Qed.

Lemma drop_trailing_blanks_id s :
  all_chars not_blank s = true -> drop_trailing_blanks s = s.
Proof.
  induction s as [|c s IH]; simpl; [done|].
  intros [Hc Hs]%andb_true_iff. rewrite (IH Hs).
  unfold not_blank in Hc. apply negb_true_iff in Hc. rewrite Hc.
  by destruct s.
Qed.

Lemma trim_blanks_id s : all_chars not_blank s = true -> trim_blanks s = s.
Proof.
  intros Hs. unfold trim_blanks.
  assert (skip_blanks s = s) as ->; [|by apply drop_trailing_blanks_id].
  destruct s as [|c s]; simpl; [done|].
  simpl in Hs. apply andb_true_iff in Hs as [Hc _].
  unfold not_blank in Hc. apply negb_true_iff in Hc. by rewrite Hc.
Qed.

Lemma digit_not_blank c : is_digit c = true -> not_blank c = true.
Proof.
  unfold is_digit, not_blank, is_blank.
  intros [H1 H2]%andb_true_iff.
  apply Nat.leb_le in H1. apply Nat.leb_le in H2.
  apply negb_true_iff.
  repeat (apply orb_false_iff; split); try (apply Nat.eqb_neq; lia).
  apply andb_false_iff. right. apply Nat.leb_gt. lia.
Qed.

Lemma digit_not_comma c : is_digit c = true -> not_comma c = true.
Proof.
  unfold is_digit, not_comma.
  intros [H1 H2]%andb_true_iff. apply Nat.leb_le in H1.
  apply negb_true_iff, Ascii.eqb_neq. intros ->. vm_compute in H1. lia.
Qed.

Lemma count_digits_all ds :
  all_chars is_digit ds = true -> count_digits ds = String.length ds.
Proof.
  induction ds as [|c ds IH]; simpl; [done|].
  intros [Hc Hds]%andb_true_iff. by rewrite Hc, IH.
Qed.

(** A run of at most [max_str_digits] digits reads as its value. *)
Lemma digits_capped_digits ds :
  all_chars is_digit ds = true -> ds <> "" ->
  (String.length ds <= max_str_digits)%nat ->
  digits_capped ds = Some (value 0 ds).
Proof.
  intros Hdig Hne Hlen. unfold digits_capped.
  rewrite (count_digits_all ds Hdig).
  assert ((max_str_digits <? String.length ds)%nat = false) as ->
    by (apply Nat.ltb_ge; exact Hlen).
  rewrite <- (app_empty_r ds) at 1. by rewrite digits_go_digits.
Qed.

(** What [int] makes of a sign followed by digits. *)
Lemma int_signed_digits ds :
  all_chars is_digit ds = true -> ds <> "" ->
  (String.length ds <= max_str_digits)%nat ->
  int ds = Some (value 0 ds)
  /\ int (String "+" ds) = Some (value 0 ds)
  /\ int (String "-" ds) = Some (- value 0 ds).
Proof.
  intros Hdig Hne Hlen.
  pose proof (all_chars_impl _ _ ds digit_not_blank Hdig) as Hnb.
  pose proof (digits_capped_digits ds Hdig Hne Hlen) as Hcap.
  unfold int. split; [|split].
  - rewrite trim_blanks_id by done.
    destruct ds as [|c ds]; [done|].
    simpl in Hdig. apply andb_true_iff in Hdig as [Hc Hds].
    assert (c <> "-"%char /\ c <> "+"%char) as [Hm Hp].
    { split; intros ->; by vm_compute in Hc. }
    destruct c as [[] [] [] [] [] [] [] []]; try done.
  - rewrite trim_blanks_id by (simpl; by rewrite Hnb). by rewrite Hcap.
  - rewrite trim_blanks_id by (simpl; by rewrite Hnb). by rewrite Hcap.
Qed.

(** The shape of [str z] for [z] within the digit limit. *)
Lemma str_shape_capped (z : Z) :
  Z.abs z < 10 ^ Z.of_nat max_str_digits ->
  exists ds, all_chars is_digit ds = true /\ ds <> "" /\ value 0 ds = Z.abs z
    /\ (String.length ds <= max_str_digits)%nat
    /\ str z = (if decide (z < 0) then String "-" ds else ds).
Proof.
  intros Hz.
  destruct (str_shape z) as (ds & Hdig & Hne & Hval & Hstr).
  exists ds. repeat split; try assumption.
  destruct z as [|p|p].
  - destruct (decide (0 < 0)); [lia|]. rewrite <- Hstr.
    apply Nat.leb_le. vm_compute. reflexivity.
  - destruct (decide (Z.pos p < 0)); [lia|]. rewrite <- Hstr.
    by apply str_positive_length.
  - destruct (decide (Z.neg p < 0)); [|lia].
    assert (ds = pretty (N.pos p)) as ->.
    { unfold str, pretty, pretty_Z in Hstr. by injection Hstr. }
    by apply str_positive_length.
Qed.

(** [int(str(z)) == z], for [z] within the digit limit. *)
Lemma int_str (z : Z) :
  Z.abs z < 10 ^ Z.of_nat max_str_digits -> int (str z) = Some z.
Proof.
  intros Hz.
  destruct (str_shape_capped z Hz) as (ds & Hdig & Hne & Hval & Hlen & Hstr).
  destruct (int_signed_digits ds Hdig Hne Hlen) as (H1 & _ & H3).
  rewrite Hstr. destruct (decide (z < 0)).
  - rewrite H3, Hval. f_equal. lia.
  - rewrite H1, Hval. f_equal. lia.
Qed.

(** *** Integer tokens *)

Lemma skip_blanks_app pre s :
  all_chars is_blank pre = true -> skip_blanks (pre +:+ s) = skip_blanks s.
Proof.
  induction pre as [|c pre IH]; simpl; [done|].
  intros [Hc Hpre]%andb_true_iff. rewrite Hc. by apply IH.
Qed.

Lemma drop_trailing_blanks_blank post :
  all_chars is_blank post = true -> drop_trailing_blanks post = "".
Proof.
  induction post as [|c post IH]; simpl; [done|].
  intros [Hc Hpost]%andb_true_iff. by rewrite (IH Hpost), Hc.
Qed.

Lemma drop_trailing_blanks_app body post :
  all_chars not_blank body = true -> all_chars is_blank post = true ->
  drop_trailing_blanks (body +:+ post) = body.
Proof.
  intros Hbody Hpost. induction body as [|c body IH]; simpl.
  - by apply drop_trailing_blanks_blank.
  - simpl in Hbody. apply andb_true_iff in Hbody as [Hc Hbody].
    rewrite (IH Hbody).
    unfold not_blank in Hc. apply negb_true_iff in Hc. rewrite Hc.
    by destruct body.
Qed.

(** Blanks around a text without blanks are dropped. *)
Lemma trim_blanks_app pre body post :
  all_chars is_blank pre = true -> all_chars not_blank body = true ->
  all_chars is_blank post = true ->
  trim_blanks (pre +:+ (body +:+ post)) = body.
Proof.
  intros Hpre Hbody Hpost. unfold trim_blanks.
  rewrite skip_blanks_app by done.
  destruct body as [|c body].
  - simpl. assert (forall s, all_chars is_blank s = true -> skip_blanks s = "") as Hs.
    { induction s as [|a s IH]; simpl; [done|].
      intros [Ha Hs]%andb_true_iff. rewrite Ha. by apply IH. }
    by rewrite (Hs post Hpost).
  - assert (skip_blanks (String c body +:+ post) = String c body +:+ post) as ->.
    { simpl. simpl in Hbody. apply andb_true_iff in Hbody as [Hc _].
      unfold not_blank in Hc. apply negb_true_iff in Hc. by rewrite Hc. }
    by apply drop_trailing_blanks_app.
Qed.

Lemma int_trimmed t body :
  trim_blanks t = body -> all_chars not_blank body = true -> int t = int body.
Proof.
  intros Ht Hbody. unfold int. by rewrite Ht, (trim_blanks_id body Hbody).
Qed.

(** [int] reads an integer token as its integer. *)
Lemma int_integer_token t z : integer_token t z -> int t = Some z.
Proof.
  intros (pre & sign & ds & post & -> & Hpre & Hpost & Hsign & Hne & Hdig & Hlen & ->).
  pose proof (all_chars_impl _ _ ds digit_not_blank Hdig) as Hnb.
  destruct (int_signed_digits ds Hdig Hne Hlen) as (H1 & H2 & H3).
  assert (all_chars not_blank (sign +:+ ds) = true) as Hbody.
  { destruct Hsign as [-> | [-> | ->]]; simpl; by rewrite ?Hnb. }
  rewrite (int_trimmed _ (sign +:+ ds)); [|by apply trim_blanks_app|done].
  destruct Hsign as [-> | [-> | ->]]; simpl; assumption.
Qed.

Lemma blank_not_comma c : is_blank c = true -> not_comma c = true.
Proof.
  unfold not_comma. intros Hc.
  apply negb_true_iff, Ascii.eqb_neq. intros ->. by vm_compute in Hc.
Qed.

Lemma integer_token_no_comma t z :
  integer_token t z -> all_chars not_comma t = true.
Proof.
  intros (pre & sign & ds & post & -> & Hpre & Hpost & Hsign & _ & Hdig & _).
  rewrite !all_chars_app.
  rewrite (all_chars_impl _ _ pre blank_not_comma Hpre).
  rewrite (all_chars_impl _ _ post blank_not_comma Hpost).
  rewrite (all_chars_impl _ _ ds digit_not_comma Hdig).
  by destruct Hsign as [-> | [-> | ->]].
Qed.

Lemma integer_token_nonempty t z : integer_token t z -> t <> "".
Proof.
  intros (pre & sign & ds & post & -> & _ & _ & Hsign & Hne & _).
  destruct pre; [|done]. simpl.
  destruct Hsign as [-> | [-> | ->]]; simpl; [|done..].
  by destruct ds.
Qed.

(** The decimal form of an integer within the digit limit is a token for
    it. *)
Lemma str_integer_token (z : Z) :
  Z.abs z < 10 ^ Z.of_nat max_str_digits -> integer_token (str z) z.
Proof.
  intros Hz.
  destruct (str_shape_capped z Hz) as (ds & Hdig & Hne & Hval & Hlen & Hstr).
  exists "", (if decide (z < 0) then "-" else ""), ds, "".
  rewrite Hstr. destruct (decide (z < 0)); simpl; rewrite app_empty_r;
    repeat split; try done; try (by left); try (by right; right); lia.
Qed.

Lemma str_no_comma (z : Z) : all_chars not_comma (str z) = true.
Proof.
  destruct (str_shape z) as (ds & Hdig & _ & _ & ->).
  pose proof (all_chars_impl _ _ ds digit_not_comma Hdig) as Hc.
  destruct (decide (z < 0)); simpl; by rewrite ?Hc.
Qed.

Lemma str_nonempty (z : Z) : str z <> "".
Proof.
  destruct (str_shape z) as (ds & _ & Hne & _ & ->).
  by destruct (decide (z < 0)).
Qed.

Lemma prefix_refl s : String.prefix s s = true.
Proof.
  induction s as [|c s IH]; simpl; [done|].
  by destruct (ascii_dec c c).
Qed.

(** A string occurs in every string it ends. *)
Lemma contains_app p s : contains s (p +:+ s) = true.
Proof.
  induction p as [|c p IH]; simpl.
  - destruct s as [|a s]; [done|].
    change (contains (String a s) (String a s))
      with (String.prefix (String a s) (String a s) || contains (String a s) s).
    by rewrite prefix_refl.
  - rewrite IH. apply orb_true_r.
Qed.

End PyStrFacts.

(** [parse_ids] on tokens that [int] accepts. *)
Lemma parse_ids_Forall2 toks zs :
  Forall2 (fun t z => PyStr.int t = Some z) toks zs -> parse_ids toks = Ret zs.
Proof.
  induction 1 as [|t z toks zs Ht _ IH]; simpl; [done|].
  by rewrite Ht, IH.
Qed.

Lemma parse_ids_tokens toks zs :
  Forall2 PyStr.integer_token toks zs -> parse_ids toks = Ret zs.
Proof.
  intros Hall. apply parse_ids_Forall2.
  induction Hall; constructor; [|done]. by apply PyStrFacts.int_integer_token.
Qed.

(** Loading the configuration raises nothing but [ValueError]s. *)
Lemma parse_ids_raise toks e : parse_ids toks = Raise e -> is_value_error e = true.
Proof.
  induction toks as [|a toks IH]; simpl; [done|].
  destruct (PyStr.int a); [|by intros [= <-]].
  destruct (parse_ids toks); [done|]. intros [= <-]. by apply IH.
Qed.

Lemma get_worker_gpu_ids_raise environ e :
  get_worker_gpu_ids environ = Raise e -> is_value_error e = true.
Proof.
  unfold get_worker_gpu_ids. destruct (decide _); [by intros [= <-]|].
  apply parse_ids_raise.
Qed.

(** A token that [int] rejects makes the comprehension raise a [ValueError]. *)
Lemma parse_ids_reject toks t :
  In t toks -> PyStr.int t = None ->
  exists t', parse_ids toks = Raise (InvalidLiteral t').
Proof.
  induction toks as [|a toks IH]; [done|].
  intros [->|Hin] Hrej; simpl.
  - rewrite Hrej. eauto.
  - destruct (PyStr.int a); [|eauto].
    destruct (IH Hin Hrej) as [t' ->]. eauto.
Qed.

Lemma probed_names_app t1 t2 :
  probed_names (t1 ++ t2) = probed_names t1 ++ probed_names t2.
Proof.
  induction t1 as [|[] t1 IH]; simpl; by rewrite ?IH.
Qed.

Lemma probe_answers_app t1 t2 :
  probe_answers (t1 ++ t2) = probe_answers t1 ++ probe_answers t2.
Proof.
  induction t1 as [|[] t1 IH]; simpl; by rewrite ?IH.
Qed.

Lemma timeout_budget_app t1 t2 :
  timeout_budget (t1 ++ t2) = timeout_budget t1 + timeout_budget t2.
Proof.
  induction t1 as [|[] t1 IH]; simpl; rewrite ?IH; lia.
Qed.

Lemma printed_app t1 t2 : printed (t1 ++ t2) = printed t1 ++ printed t2.
Proof.
  induction t1 as [|[] t1 IH]; simpl; by rewrite ?IH.
Qed.

Lemma lease_events_app t1 t2 :
  lease_events (t1 ++ t2) = lease_events t1 ++ lease_events t2.
Proof. apply List.filter_app. Qed.

Lemma milestones_app t1 t2 :
  milestones (t1 ++ t2) = milestones t1 ++ milestones t2.
Proof. apply List.filter_app. Qed.

(** Lease events are the milestones that are not unit starts. *)
Lemma lease_events_milestones t : lease_events (milestones t) = lease_events t.
Proof.
  unfold lease_events, milestones.
  induction t as [|ev t IH]; [done|].
  destruct ev as [[]|? ? ? []| | |]; simpl; by rewrite ?IH.
Qed.

Lemma paired_app t1 t2 :
  paired t1 = true -> paired t2 = true -> paired (t1 ++ t2) = true.
Proof.
  revert t1. fix IH 1. intros [|ev [|ev' t1]]; simpl; try done.
  - by destruct ev as [|? ? ? []| | |].
  - destruct ev as [|n o ms []| | |]; try done.
    destruct ev'; try done.
    intros [H1 H2]%andb_true_iff H3. rewrite H1. simpl. by apply IH.
Qed.

Lemma one_lease_of_lease_events t :
  (paired (lease_events t) = true -> one_lease_at_a_time None t = true)
  /\ (forall n,
        match lease_events t with
        | EvRelease n' _ :: r => n = n' /\ paired r = true
        | _ => False
        end -> one_lease_at_a_time (Some n) t = true).
Proof.
  induction t as [|ev t [IH1 IH2]]; [by split|].
  destruct ev as [r|n o ms [e|]|n o|sec|line]; simpl; try (by split).
  - split; [|done].
    destruct (lease_events t) as [|ev' r] eqn:Hl; [done|].
    destruct ev'; try done.
    intros [[Hn _]%andb_true_iff Hr]%andb_true_iff.
    apply IH2. split; [by apply bool_decide_eq_true in Hn|done].
  - split; [done|].
    intros n0 [-> Hr]. rewrite bool_decide_eq_true_2 by done. by apply IH1.
Qed.

(** A run whose lease events are paired keeps the lease discipline. *)
Lemma paired_one_lease t :
  paired (lease_events t) = true -> one_lease_at_a_time None t = true.
Proof. apply one_lease_of_lease_events. Qed.

(** ** The probe loop *)

Section ProtocolFacts.

Context {L : Type} `{!LimiterClient L}.

Implicit Types (w : World L) (l : L) (fr : Frame) (t : list event).

Lemma probe_loop_cons worker g n rest w :
  probe_loop worker ((g, n) :: rest) w =
    match try_acquire n 1 probe_timeout_ms (limiter w) with
    | (None, l) =>
        (Ret {| fr_worker := worker; fr_gpu := g; fr_name := n; fr_rest := rest |},
         [EvAcquire n 1 probe_timeout_ms None; EvLog (LogAcquired g worker)],
         set_limiter l w)
    | (Some e, l) =>
        if is_contention e then
          let '(r, t, w') := probe_loop worker rest (set_limiter l w) in
          (r, EvAcquire n 1 probe_timeout_ms (Some e) :: EvLog (LogBusy g) :: t, w')
        else (Raise e, [EvAcquire n 1 probe_timeout_ms (Some e)], set_limiter l w)
    end.
Proof.
  simpl. unfold concurrency_enter.
  destruct (try_acquire n 1 probe_timeout_ms (limiter w)) as [[e|] l]; [|done].
  destruct (is_contention e); [|done].
  unfold bind, logger_info, emit.
  by destruct (probe_loop worker rest (set_limiter l w)) as [[r t] w'].
Qed.

(** Case analysis on the answer to the first probe of the loop. *)
Ltac probe_step worker g n rest w IH :=
  rewrite (probe_loop_cons worker g n rest w);
  let e := fresh "e" in let l := fresh "l" in let Hc := fresh "Hc" in
  destruct (try_acquire n 1 probe_timeout_ms (limiter w)) as [[e|] l] eqn:?;
  [ destruct (is_contention e) eqn:Hc;
    [ specialize (IH (set_limiter l w));
      destruct (probe_loop worker rest (set_limiter l w)) as [[? ?] ?] | ]
  | ].

(** The loop changes nothing but the service. *)
Lemma probe_loop_frame worker cands : forall w,
  environ (final (probe_loop worker cands w)) = environ w
  /\ rng (final (probe_loop worker cands w)) = rng w.
Proof.
  induction cands as [|[g n] rest IH]; intros w; [done|].
  probe_step worker g n rest w IH; done.
Qed.

(** What a run of the loop that yields looks like. *)
Lemma probe_loop_ret worker cands : forall w fr t w',
  probe_loop worker cands w = (Ret fr, t, w') ->
  exists pre,
    cands = pre ++ (fr_gpu fr, fr_name fr) :: fr_rest fr
    /\ fr_worker fr = worker
    /\ probed_names t = map snd pre ++ [fr_name fr]
    /\ lease_events t = [EvAcquire (fr_name fr) 1 probe_timeout_ms None].
Proof.
  induction cands as [|[g n] rest IH]; intros w fr t w'; [done|].
  probe_step worker g n rest w IH; intros ?; simplify_eq; [|by exists []].
  destruct (IH _ _ _ eq_refl) as (pre & -> & Hw & Hp & Hl).
  exists ((g, n) :: pre). simpl. by rewrite Hp.
Qed.

(** What a run of the loop that raises looks like: no slot was obtained, and
    the exception is not one of the two the loop catches. *)
Lemma probe_loop_raise worker cands : forall w e t w',
  probe_loop worker cands w = (Raise e, t, w') ->
  lease_events t = [] /\ is_contention e = false.
Proof.
  induction cands as [|[g n] rest IH]; intros w e t w'.
  - by intros [= <- <- <-].
  - probe_step worker g n rest w IH; intros ?; simplify_eq; [|done].
    by destruct (IH _ _ _ eq_refl).
Qed.

(** Candidates are probed in list order, each at most once. *)
Lemma probe_loop_prefix worker cands : forall w,
  probed_names (events (probe_loop worker cands w)) `prefix_of` map snd cands.
Proof.
  induction cands as [|[g n] rest IH]; intros w; [done|].
  probe_step worker g n rest w IH; simpl.
  - by apply prefix_cons.
  - apply prefix_cons, prefix_nil.
  - apply prefix_cons, prefix_nil.
Qed.

(** Every probe waits for at most [probe_timeout_ms]. *)
Lemma probe_loop_budget worker cands : forall w,
  timeout_budget (events (probe_loop worker cands w))
  = probe_timeout_ms * Z.of_nat (length (probed_names (events (probe_loop worker cands w)))).
Proof.
  induction cands as [|[g n] rest IH]; intros w; [done|].
  probe_step worker g n rest w IH; unfold events in *; simpl in *; lia.
Qed.

(** Only an answer that is a contention exception is followed by another
    probe. *)
Lemma probe_loop_fallthrough worker cands : forall w i a,
  probe_answers (events (probe_loop worker cands w)) !! i = Some a ->
  (S i < length (probe_answers (events (probe_loop worker cands w))))%nat ->
  exists e, a = Some e /\ is_contention e = true.
Proof.
  induction cands as [|[g n] rest IH]; intros w i a; [done|].
  probe_step worker g n rest w IH; unfold events in *; simpl in *.
  - destruct i as [|i]; simpl.
    + intros [= <-] _. eauto.
    + intros Hi Hlen. apply (IH i a Hi). lia.
  - intros _ Hlen. lia.
  - intros _ Hlen. lia.
Qed.

(** Candidates that are all contended are passed over. *)
Lemma probe_loop_contended worker pre post : forall w l1,
  contended (map snd pre) (limiter w) = Some l1 ->
  exists t_pre,
    probe_loop worker (pre ++ post) w
    = (let '(r, t, w') := probe_loop worker post (set_limiter l1 w) in
       (r, t_pre ++ t, w'))
    /\ probed_names t_pre = map snd pre
    /\ lease_events t_pre = [].
Proof.
  induction pre as [|[g n] pre IH]; intros w l1 Hc; simpl in Hc.
  - injection Hc as <-. exists []. destruct w as [en li rn].
    unfold set_limiter. simpl.
    by destruct (probe_loop worker post _) as [[r t] w'].
  - change (((g, n) :: pre) ++ post) with ((g, n) :: (pre ++ post)).
    rewrite (probe_loop_cons worker g n (pre ++ post) w).
    destruct (try_acquire n 1 probe_timeout_ms (limiter w)) as [[e|] l]; [|done].
    destruct (is_contention e); [|done].
    destruct (IH (set_limiter l w) l1 Hc) as (t_pre & -> & Hp & Hl).
    change (set_limiter l1 (set_limiter l w)) with (set_limiter l1 w).
    destruct (probe_loop worker post (set_limiter l1 w)) as [[r t] w'].
    exists (EvAcquire n 1 probe_timeout_ms (Some e) :: EvLog (LogBusy g) :: t_pre).
    simpl. by rewrite Hp.
Qed.

Lemma probe_loop_params worker cands : forall w,
  Forall probe_params_ok (events (probe_loop worker cands w)).
Proof.
  induction cands as [|[g n] rest IH]; intros w; [by constructor|].
  probe_step worker g n rest w IH; unfold events in *; simpl in *;
    repeat constructor; done.
Qed.

Lemma contended_app a b l :
  contended (a ++ b) l = contended a l ≫= contended b.
Proof.
  revert l. induction a as [|n a IH]; intros l; simpl; [done|].
  destruct (try_acquire n 1 probe_timeout_ms l) as [[e|] l']; [|done].
  destruct (is_contention e); [apply IH|done].
Qed.

(** The loop starts no work unit and prints nothing. *)
Lemma probe_loop_quiet worker cands : forall w,
  milestones (events (probe_loop worker cands w))
  = lease_events (events (probe_loop worker cands w))
  /\ printed (events (probe_loop worker cands w)) = [].
Proof.
  induction cands as [|[g n] rest IH]; intros w; [done|].
  probe_step worker g n rest w IH;
    unfold events, milestones, lease_events in *; simpl in *; [|done..].
  destruct IH as [IH1 IH2]. by rewrite IH1.
Qed.

End ProtocolFacts.

(** ** Configuration *)

(** C10 (as amended). A resource-id value made of comma-separated integer
    tokens, each an optional sign followed by at most 4300 digits, is loaded
    as exactly the integers written, in the order written; negative and
    repeated ids are kept as they are. *)
Theorem gpu_ids_in_declaration_order (environ : gmap string string)
    (toks : list string) (zs : list Z) :
  toks <> [] ->
  Forall2 PyStr.integer_token toks zs ->
  get_worker_gpu_ids (<["WORKER_GPU_IDS" := PyStr.join "," toks]> environ) = Ret zs.
Proof.
  intros Hne Hall. unfold get_worker_gpu_ids.
  rewrite lookup_insert_eq. simpl.
  assert (Forall (fun t => exists z, PyStr.integer_token t z) toks) as Htok.
  { clear Hne. induction Hall; constructor; [by eexists|done]. }
  destruct (decide (PyStr.join "," toks = "")) as [Hempty|_].
  - exfalso. revert Hempty. apply PyStrFacts.join_nonempty; [done|].
    eapply Forall_impl; [exact Htok|].
    intros t [z Ht]. by apply (PyStrFacts.integer_token_nonempty t z).
  - rewrite PyStrFacts.split_join; [by apply parse_ids_tokens|done|].
    eapply Forall_impl; [exact Htok|].
    intros t [z Ht]. by apply (PyStrFacts.integer_token_no_comma t z).
Qed.

(** C10, as stated, fails for a token of 4301 digits: [int] refuses it and
    loading raises. *)
Lemma long_integer_token_is_refused :
  PyStr.all_chars PyStr.is_digit long_token = true
  /\ String.length long_token = 4301%nat
  /\ ~ exists zs, get_worker_gpu_ids {[ "WORKER_GPU_IDS" := long_token ]} = Ret zs.
Proof.
  split; [vm_compute; reflexivity|]. split; [vm_compute; reflexivity|].
  intros [zs H]. vm_compute in H. discriminate.
Qed.

Lemma gpu_ids_in_declaration_order_witness :
  PyStr.join "," ["-3"; "1"; "+1"; " 007"] = "-3,1,+1, 007"
  /\ get_worker_gpu_ids {[ "WORKER_GPU_IDS" := "-3,1,+1, 007" ]} = Ret [-3; 1; 1; 7].
Proof.
  split; [reflexivity|].
  apply (gpu_ids_in_declaration_order ∅ ["-3"; "1"; "+1"; " 007"] [-3; 1; 1; 7]);
    [discriminate|].
  repeat constructor.
  - exists "", "-", "3", "".
    repeat split; [right; right; reflexivity|discriminate|].
    apply Nat.leb_le. reflexivity.
  - exists "", "", "1", "".
    repeat split; [left; reflexivity|discriminate|].
    apply Nat.leb_le. reflexivity.
  - exists "", "+", "1", "".
    repeat split; [right; left; reflexivity|discriminate|].
    apply Nat.leb_le. reflexivity.
  - exists " ", "", "007", "".
    repeat split; [left; reflexivity|discriminate|].
    apply Nat.leb_le. reflexivity.
Defined.

(** ** Acquisition *)

Section AcquireFacts.

Context {L : Type} `{!LimiterClient L} {py : Interpreter}.

Implicit Types (w : World L) (l : L) (fr : Frame) (t : list event).

(** With a valid configuration, [acquire_gpu] logs it and enters the loop. *)
Lemma acquire_gpu_start_configured w worker ids :
  environ w !! "WORKER_ID" = Some worker ->
  get_worker_gpu_ids (environ w) = Ret ids ->
  acquire_gpu_start w
  = (let '(r, t, w') := probe_loop worker (limit_names worker ids) w in
     (r, EvLog (LogWorkerGpus worker ids)
           :: EvLog (LogLimitNames (limit_names worker ids)) :: t, w')).
Proof.
  intros Hw Hids. unfold acquire_gpu_start, bind, lift, logger_info, emit, ret.
  rewrite Hw, Hids. simpl.
  by destruct (probe_loop worker (limit_names worker ids) w) as [[r t] w'].
Qed.

Lemma limit_names_snd worker ids :
  map snd (limit_names worker ids) = map (limit_name worker) ids.
Proof. unfold limit_names. rewrite map_map. done. Qed.

Lemma limit_names_app worker a b :
  limit_names worker (a ++ b) = limit_names worker a ++ limit_names worker b.
Proof. apply map_app. Qed.

(** C1. Candidates are probed in declaration order, and the first one whose
    slot is free is the one the lease is bound to: when the candidates
    before [g] are all contended and the slot of [g] is obtained, the
    generator yields [g] having probed exactly the candidates up to [g]. *)
Theorem acquire_first_fit w worker ids :
  environ w !! "WORKER_ID" = Some worker ->
  get_worker_gpu_ids (environ w) = Ret ids ->
  probed_names (events (acquire_gpu_start w)) `prefix_of` map (limit_name worker) ids
  /\ forall pre g post l1 l2,
       ids = pre ++ g :: post ->
       contended (map (limit_name worker) pre) (limiter w) = Some l1 ->
       try_acquire (limit_name worker g) 1 probe_timeout_ms l1 = (None, l2) ->
       outcome (acquire_gpu_start w)
       = Ret {| fr_worker := worker; fr_gpu := g;
                fr_name := limit_name worker g;
                fr_rest := limit_names worker post |}
       /\ probed_names (events (acquire_gpu_start w))
          = map (limit_name worker) (pre ++ [g])
       /\ lease_events (events (acquire_gpu_start w))
          = [EvAcquire (limit_name worker g) 1 probe_timeout_ms None]
       /\ limiter (final (acquire_gpu_start w)) = l2.
Proof.
  intros Hw Hids. rewrite (acquire_gpu_start_configured w worker ids Hw Hids).
  split.
  - pose proof (probe_loop_prefix worker (limit_names worker ids) w) as Hp.
    rewrite limit_names_snd in Hp.
    by destruct (probe_loop worker (limit_names worker ids) w) as [[r t] w'].
  - intros pre g post l1 l2 -> Hpre Hg.
    rewrite limit_names_app. rewrite <- limit_names_snd in Hpre.
    destruct (probe_loop_contended worker (limit_names worker pre)
                (limit_names worker (g :: post)) w l1 Hpre) as (t_pre & -> & Hp & Hl).
    change (limit_names worker (g :: post))
      with ((g, limit_name worker g) :: limit_names worker post).
    rewrite probe_loop_cons. simpl. rewrite Hg.
    unfold outcome, events, final. simpl. repeat split.
    + rewrite probed_names_app, Hp, limit_names_snd, map_app. done.
    + rewrite lease_events_app, Hl. done.
Qed.

(** C3 (as amended). When every candidate is contended, [acquire_gpu] raises
    a [RuntimeError] whose message is the fixed text followed by the worker
    id; the candidate ids are in the log record emitted before probing, not
    in the error. *)
Theorem exhausted_error_names_worker w worker ids l' :
  environ w !! "WORKER_ID" = Some worker ->
  get_worker_gpu_ids (environ w) = Ret ids ->
  contended (map (limit_name worker) ids) (limiter w) = Some l' ->
  outcome (acquire_gpu_start w)
  = Raise (RuntimeError ("No available GPUs on worker " +:+ worker))
  /\ PyStr.contains worker ("No available GPUs on worker " +:+ worker) = true
  /\ In (EvLog (LogWorkerGpus worker ids)) (events (acquire_gpu_start w)).
Proof.
  intros Hw Hids Hc. rewrite (acquire_gpu_start_configured w worker ids Hw Hids).
  rewrite <- limit_names_snd in Hc.
  destruct (probe_loop_contended worker (limit_names worker ids) [] w l' Hc)
    as (t_pre & Heq & _).
  rewrite app_nil_r in Heq. rewrite Heq.
  split; [done|]. split; [apply PyStrFacts.contains_app|by left].
Qed.

(** C4. A run of [acquire_gpu] over [N] configured candidates makes at most
    [N] probes, in list order and without going back, each bounded by the
    fixed timeout of 100 ms, so that its waiting time is at most [N] times
    100 ms; when all candidates are contended it makes exactly [N] probes,
    raises the exhaustion error, and has obtained no slot. *)
Theorem acquire_bounded w worker ids :
  environ w !! "WORKER_ID" = Some worker ->
  get_worker_gpu_ids (environ w) = Ret ids ->
  (length (probed_names (events (acquire_gpu_start w))) <= length ids)%nat
  /\ probed_names (events (acquire_gpu_start w)) `prefix_of` map (limit_name worker) ids
  /\ Forall probe_params_ok (events (acquire_gpu_start w))
  /\ probe_timeout_ms = 100
  /\ timeout_budget (events (acquire_gpu_start w)) <= Z.of_nat (length ids) * 100
  /\ forall l', contended (map (limit_name worker) ids) (limiter w) = Some l' ->
       outcome (acquire_gpu_start w)
       = Raise (RuntimeError ("No available GPUs on worker " +:+ worker))
       /\ probed_names (events (acquire_gpu_start w)) = map (limit_name worker) ids
       /\ lease_events (events (acquire_gpu_start w)) = []
       /\ limiter (final (acquire_gpu_start w)) = l'.
Proof.
  intros Hw Hids. rewrite (acquire_gpu_start_configured w worker ids Hw Hids).
  pose proof (probe_loop_prefix worker (limit_names worker ids) w) as Hp.
  pose proof (probe_loop_budget worker (limit_names worker ids) w) as Hb.
  pose proof (probe_loop_params worker (limit_names worker ids) w) as Hpar.
  rewrite limit_names_snd in Hp.
  assert (forall l', contended (map (limit_name worker) ids) (limiter w) = Some l' ->
    exists t_pre, probe_loop worker (limit_names worker ids) w
      = (Raise (RuntimeError ("No available GPUs on worker " +:+ worker)),
         t_pre, set_limiter l' w)
      /\ probed_names t_pre = map (limit_name worker) ids
      /\ lease_events t_pre = []) as Hall.
  { intros l' Hc. rewrite <- limit_names_snd in Hc.
    destruct (probe_loop_contended worker (limit_names worker ids) [] w l' Hc)
      as (t_pre & Heq & Hn & Hl).
    rewrite !app_nil_r in Heq. simpl in Heq. rewrite app_nil_r in Heq.
    exists t_pre. by rewrite <- limit_names_snd. }
  destruct (probe_loop worker (limit_names worker ids) w) as [[r t] w'].
  unfold events, outcome, final in *. simpl in *.
  assert (length (probed_names t) <= length ids)%nat as Hlen.
  { apply prefix_length in Hp. by rewrite length_map in Hp. }
  split; [done|]. split; [done|]. split; [by repeat constructor|].
  split; [done|]. split; [unfold probe_timeout_ms in Hb; lia|].
  intros l' Hc. destruct (Hall l' Hc) as (t_pre & [= -> -> ->] & Hn & Hl). done.
Qed.

(** C5 (as amended). While probing, the answers after which another
    candidate is probed are the exceptions of the two classes caught at
    line 110, and the limiter client reports every failed probe in one of
    them: a slot that stayed occupied, a service that could not be reached
    and an error status all fall through.  An exception of any other class
    leaves [acquire_gpu] at once, unchanged, with no slot obtained and no
    later candidate probed. *)
Theorem only_contention_falls_through w worker ids :
  environ w !! "WORKER_ID" = Some worker ->
  get_worker_gpu_ids (environ w) = Ret ids ->
  (forall f, is_contention (client_exception f) = true)
  /\ (forall i a,
     probe_answers (events (acquire_gpu_start w)) !! i = Some a ->
     (S i < length (probe_answers (events (acquire_gpu_start w))))%nat ->
     exists e, a = Some e /\ is_contention e = true)
  /\ forall pre g post l1 l2 e,
       ids = pre ++ g :: post ->
       contended (map (limit_name worker) pre) (limiter w) = Some l1 ->
       try_acquire (limit_name worker g) 1 probe_timeout_ms l1 = (Some e, l2) ->
       if is_contention e then
         map (limit_name worker) (pre ++ g :: take 1 post)
           `prefix_of` probed_names (events (acquire_gpu_start w))
       else
         outcome (acquire_gpu_start w) = Raise e
         /\ probed_names (events (acquire_gpu_start w))
            = map (limit_name worker) (pre ++ [g])
         /\ lease_events (events (acquire_gpu_start w)) = []
         /\ limiter (final (acquire_gpu_start w)) = l2.
Proof.
  intros Hw Hids. rewrite (acquire_gpu_start_configured w worker ids Hw Hids).
  split; [by intros []|]. split.
  - pose proof (probe_loop_fallthrough worker (limit_names worker ids) w) as Hf.
    destruct (probe_loop worker (limit_names worker ids) w) as [[r t] w'].
    exact Hf.
  - intros pre g post l1 l2 e -> Hpre Hg.
    destruct (is_contention e) eqn:He.
    + assert (contended (map snd (limit_names worker (pre ++ [g]))) (limiter w)
              = Some l2) as Hc.
      { rewrite limit_names_snd, map_app, contended_app, Hpre. simpl.
        by rewrite Hg, He. }
      replace (pre ++ g :: post) with ((pre ++ [g]) ++ post)
        by by rewrite <- app_assoc.
      rewrite limit_names_app.
      destruct (probe_loop_contended worker (limit_names worker (pre ++ [g]))
                  (limit_names worker post) w l2 Hc) as (t_pre & -> & Hp & _).
      rewrite limit_names_snd in Hp.
      destruct post as [|g' post].
      * change (take 1 (@nil Z)) with (@nil Z). simpl. unfold events. simpl. rewrite app_nil_r, Hp. done.
      * change (take 1 (g' :: post)) with [g'].
        change (limit_names worker (g' :: post))
          with ((g', limit_name worker g') :: limit_names worker post).
        rewrite probe_loop_cons.
        replace (pre ++ [g; g']) with ((pre ++ [g]) ++ [g'])
          by by rewrite <- app_assoc.
        rewrite (map_app _ (pre ++ [g])), <- Hp.
        destruct (try_acquire (limit_name worker g') 1 probe_timeout_ms
                    (limiter (set_limiter l2 w))) as [[e'|] l3];
          [destruct (is_contention e');
            [destruct (probe_loop _ _ _) as [[r t] w']|]|];
          unfold events; simpl; rewrite probed_names_app; simpl;
          apply prefix_app, prefix_cons, prefix_nil.
    + rewrite limit_names_app. rewrite <- limit_names_snd in Hpre.
      destruct (probe_loop_contended worker (limit_names worker pre)
                  (limit_names worker (g :: post)) w l1 Hpre) as (t_pre & -> & Hp & Hl).
      change (limit_names worker (g :: post))
        with ((g, limit_name worker g) :: limit_names worker post).
      rewrite probe_loop_cons. simpl. rewrite Hg, He.
      unfold outcome, events, final. simpl. repeat split.
      * rewrite probed_names_app, Hp, limit_names_snd, map_app. done.
      * rewrite lease_events_app, Hl. done.
Qed.

(** C6 (as amended). A missing worker id, a missing or empty resource-id
    value, or a resource-id token that [int] rejects makes [acquire_gpu]
    raise a [ValueError] before anything else happens: no event is emitted
    and the state, the limiter included, is untouched; the protected block
    is not run. *)
Theorem configuration_error_before_limiter w :
  environ w !! "WORKER_ID" = None
  \/ environ w !! "WORKER_GPU_IDS" = None
  \/ environ w !! "WORKER_GPU_IDS" = Some ""
  \/ (exists raw tok,
        environ w !! "WORKER_GPU_IDS" = Some raw
        /\ In tok (PyStr.split "," raw) /\ PyStr.int tok = None) ->
  exists e,
    is_value_error e = true
    /\ acquire_gpu_start w = (Raise e, [], w)
    /\ forall A (body : Z -> M L A), with_acquire_gpu body w = (Raise e, [], w).
Proof.
  intros Hcfg.
  assert (exists e, acquire_gpu_start w = (Raise e, [], w) /\ is_value_error e = true)
    as (e & Heq & He).
  { unfold acquire_gpu_start, bind, lift, raise, ret.
    destruct (environ w !! "WORKER_ID") as [worker|] eqn:Hw;
      [|eexists; split; reflexivity].
    destruct Hcfg as [?|Hcfg]; [done|].
    assert (exists e, get_worker_gpu_ids (environ w) = Raise e
                      /\ is_value_error e = true) as (e & -> & He);
      [|by exists e].
    unfold get_worker_gpu_ids.
    destruct Hcfg as [->|[->|(raw & tok & -> & Hin & Hrej)]]; simpl;
      [eexists; split; reflexivity..|].
    destruct (decide (raw = "")); [eexists; split; reflexivity|].
    destruct (parse_ids_reject _ _ Hin Hrej) as [t' ->].
    eexists; split; reflexivity. }
  exists e. split; [done|]. split; [done|].
  intros A body. unfold with_acquire_gpu. by rewrite Heq.
Qed.

End AcquireFacts.

(** ** The acquisition scope *)

Section ScopeFacts.

Context {L : Type} `{!LimiterClient L} {py : Interpreter}.

Implicit Types (w : World L) (l : L) (fr : Frame) (t : list event).

Lemma acquire_gpu_start_ret w fr t0 w0 :
  acquire_gpu_start w = (Ret fr, t0, w0) ->
  lease_events t0 = [EvAcquire (fr_name fr) 1 probe_timeout_ms None]
  /\ environ w !! "WORKER_ID" = Some (fr_worker fr)
  /\ exists ids pre,
       get_worker_gpu_ids (environ w) = Ret ids
       /\ limit_names (fr_worker fr) ids = pre ++ (fr_gpu fr, fr_name fr) :: fr_rest fr
       /\ probed_names t0 = map snd pre ++ [fr_name fr].
Proof.
  unfold acquire_gpu_start, bind, lift, raise, ret, logger_info, emit.
  destruct (environ w !! "WORKER_ID") as [worker|]; [|done].
  destruct (get_worker_gpu_ids (environ w)) as [ids|]; [|done]. simpl.
  destruct (probe_loop worker (limit_names worker ids) w) as [[r t] w'] eqn:Hloop.
  intros ?; simplify_eq.
  destruct (probe_loop_ret _ _ _ _ _ _ Hloop) as (pre & Hc & <- & Hp & Hl).
  split; [done|]. split; [done|]. by exists ids, pre.
Qed.

Lemma acquire_gpu_start_raise w e t0 w0 :
  acquire_gpu_start w = (Raise e, t0, w0) ->
  lease_events t0 = [] /\ is_contention e = false.
Proof.
  unfold acquire_gpu_start, bind, lift, raise, ret, logger_info, emit.
  destruct (environ w !! "WORKER_ID") as [worker|]; [|by intros ?; simplify_eq].
  destruct (get_worker_gpu_ids (environ w)) as [ids|e0] eqn:Hids; simpl.
  - destruct (probe_loop worker (limit_names worker ids) w) as [[r t] w'] eqn:Hloop.
    intros ?; simplify_eq. by apply (probe_loop_raise _ _ _ _ _ _ Hloop).
  - apply get_worker_gpu_ids_raise in Hids.
    intros ?; simplify_eq. split; [done|]. by destruct e.
Qed.

Lemma limit_names_elem worker ids pre g n rest :
  limit_names worker ids = pre ++ (g, n) :: rest -> n = limit_name worker g.
Proof.
  intros Heq.
  assert (In (g, n) (limit_names worker ids)) as Hin.
  { rewrite Heq. apply in_or_app. right. by left. }
  unfold limit_names in Hin. apply in_map_iff in Hin as (x & [= <- <-] & _).
  done.
Qed.

(** The limit name of a frame is the one derived from its worker and GPU. *)
Lemma acquire_gpu_start_name w fr t0 w0 :
  acquire_gpu_start w = (Ret fr, t0, w0) ->
  fr_name fr = limit_name (fr_worker fr) (fr_gpu fr).
Proof.
  intros Hstart.
  destruct (acquire_gpu_start_ret _ _ _ _ Hstart) as (_ & _ & ids & pre & _ & Hc & _).
  by eapply limit_names_elem.
Qed.

(** Entering the scope starts no work unit, prints nothing and changes
    nothing but the service. *)
Lemma acquire_gpu_start_quiet w :
  milestones (events (acquire_gpu_start w))
  = lease_events (events (acquire_gpu_start w))
  /\ printed (events (acquire_gpu_start w)) = []
  /\ environ (final (acquire_gpu_start w)) = environ w
  /\ rng (final (acquire_gpu_start w)) = rng w.
Proof.
  unfold acquire_gpu_start, bind, lift, raise, ret, logger_info, emit.
  destruct (environ w !! "WORKER_ID") as [worker|]; [|done].
  destruct (get_worker_gpu_ids (environ w)) as [ids|]; [|done]. simpl.
  destruct (probe_loop_quiet worker (limit_names worker ids) w) as [Hm Hp].
  destruct (probe_loop_frame worker (limit_names worker ids) w) as [He Hr].
  destruct (probe_loop worker (limit_names worker ids) w) as [[r t] w'].
  unfold events, final, milestones, lease_events in *. simpl in *.
  by rewrite Hm.
Qed.

(** The three ways out of a block that raised [e]. *)
Lemma exit_raising_unfold fr e w :
  exit_raising fr e w =
    if is_contention e then
      match probe_loop (fr_worker fr) (fr_rest fr) (released fr w) with
      | (Raise e', t, w') =>
          (e', EvRelease (fr_name fr) 1 :: EvLog (LogBusy (fr_gpu fr)) :: t, w')
      | (Ret fr', t, w') =>
          (RuntimeError "generator didn't stop after throw()",
           EvRelease (fr_name fr) 1 :: EvLog (LogBusy (fr_gpu fr))
             :: t ++ (if closes_unstopped_generator
                      then [EvRelease (fr_name fr') 1] else []),
           if closes_unstopped_generator then released fr' w' else w')
      end
    else (e, [EvRelease (fr_name fr) 1], released fr w).
Proof.
  unfold exit_raising, acquire_gpu_throw, acquire_gpu_close, concurrency_exit,
    bind, logger_info, emit, raise, released.
  destruct (is_contention e); [|done].
  destruct (probe_loop _ _ _) as [[[fr'|e'] t] w']; [|done].
  destruct closes_unstopped_generator; simpl; by rewrite ?app_nil_r.
Qed.

(** C9. When the protected block raises one of the two contention
    exceptions, the scope does not let it out: the slot is released, the
    resource is logged as busy, and the loop goes on with the candidates
    that remain, probing the next one if there is one.  The scope then ends
    with the error of the loop, or, if a second slot was obtained, with the
    error of a generator that did not stop; that slot is released before
    the scope ends where the interpreter closes the generator, and is still
    held then where it does not. *)
Theorem block_contention_resumes_probing {A} (body : Z -> M L A) w fr t0 w0 e tb w1 :
  acquire_gpu_start w = (Ret fr, t0, w0) ->
  body (fr_gpu fr) w0 = (Raise e, tb, w1) ->
  is_contention e = true ->
  exists e' t_rest,
    outcome (with_acquire_gpu body w) = Raise e'
    /\ e' <> e
    /\ events (with_acquire_gpu body w)
       = t0 ++ tb ++ EvRelease (fr_name fr) 1
                     :: EvLog (LogBusy (fr_gpu fr)) :: t_rest
    /\ probed_names t_rest `prefix_of` map snd (fr_rest fr)
    /\ (forall g n rest, fr_rest fr = (g, n) :: rest ->
          exists a t', t_rest = EvAcquire n 1 probe_timeout_ms a :: t')
    /\ match probe_loop (fr_worker fr) (fr_rest fr) (released fr w1) with
       | (Raise x, t, w') =>
           e' = x /\ t_rest = t /\ final (with_acquire_gpu body w) = w'
       | (Ret fr', t, w') =>
           e' = RuntimeError "generator didn't stop after throw()"
           /\ t_rest = t ++ (if closes_unstopped_generator
                             then [EvRelease (fr_name fr') 1] else [])
           /\ final (with_acquire_gpu body w)
              = (if closes_unstopped_generator then released fr' w' else w')
       end.
Proof.
  intros Hstart Hbody He. unfold with_acquire_gpu.
  rewrite Hstart, Hbody, exit_raising_unfold, He.
  assert (forall g n rest, fr_rest fr = (g, n) :: rest ->
            exists a t', events (probe_loop (fr_worker fr) (fr_rest fr) (released fr w1))
                         = EvAcquire n 1 probe_timeout_ms a :: t') as Hnext.
  { intros g n rest ->. rewrite probe_loop_cons.
    destruct (try_acquire _ _ _ _) as [[x|] l];
      [destruct (is_contention x);
        [destruct (probe_loop (fr_worker fr) rest _) as [[r t] w']|]|];
      unfold events; simpl; eexists _, _; reflexivity. }
  pose proof (probe_loop_prefix (fr_worker fr) (fr_rest fr) (released fr w1)) as Hp.
  destruct (probe_loop _ _ _) as [[[fr'|x] t] w'] eqn:Hloop;
    unfold outcome, events, final in *; simpl in *.
  - exists (RuntimeError "generator didn't stop after throw()"),
      (t ++ (if closes_unstopped_generator then [EvRelease (fr_name fr') 1] else [])).
    split; [done|]. split; [by destruct e|]. split; [done|].
    split; [|split; [|done]].
    + rewrite probed_names_app.
      destruct closes_unstopped_generator; simpl; by rewrite app_nil_r.
    + intros g n rest Hr. destruct (Hnext g n rest Hr) as (a & t' & ->).
      by eexists _, _.
  - exists x, t. split; [done|].
    destruct (probe_loop_raise _ _ _ _ _ _ Hloop) as [_ Hx].
    split; [intros ->; congruence|]. by repeat split.
Qed.

End ScopeFacts.

(** ** Work units *)

Section UnitFacts.

Context {L : Type} `{!LimiterClient L}.

Implicit Types (w : World L) (t : list event).

Lemma quiet_app t1 t2 : quiet t1 -> quiet t2 -> quiet (t1 ++ t2).
Proof.
  intros [H1 H2] [H3 H4]. split.
  - by rewrite milestones_app, H1, H3.
  - by rewrite printed_app, H2, H4.
Qed.

Lemma bind_ret_eq {A B} (m : M L A) (k : A -> M L B) w a t1 w1 :
  m w = (Ret a, t1, w1) ->
  bind m k w = (let '(r, t2, w2) := k a w1 in (r, t1 ++ t2, w2)).
Proof. intros Hm. unfold bind. by rewrite Hm. Qed.

Lemma bind_raise_eq {A B} (m : M L A) (k : A -> M L B) w e t1 w1 :
  m w = (Raise e, t1, w1) -> bind m k w = (Raise e, t1, w1).
Proof. intros Hm. unfold bind. by rewrite Hm. Qed.

Lemma drawn_trans j k w w' w'' :
  drawn j w w' -> drawn k w' w'' -> drawn (k + j) w w''.
Proof.
  intros (H1 & H2 & H3 & H4) (H5 & H6 & H7 & H8).
  repeat split; [congruence..|lia].
Qed.

Lemma drawn_refl w : drawn 0 w w.
Proof. by repeat split. Qed.

(** [drawn] determines the state. *)
Lemma drawn_exact k w w' : drawn k w w' -> w' = after_draws k w.
Proof.
  destruct w as [en li [d c]], w' as [en' li' [d' c']].
  unfold drawn, after_draws, set_rng. simpl.
  intros (-> & -> & -> & ->). reflexivity.
Qed.

Lemma simulate_loop_spec n : forall acc w,
  exists v t w',
    simulate_loop n acc w = (Ret v, t, w') /\ drawn n w w' /\ quiet t.
Proof.
  induction n as [|n IH]; intros acc w.
  - exists acc, [], w. split; [done|]. split; [apply drawn_refl|done].
  - simpl. unfold randint, sleep, emit, bind, rng_next. simpl.
    set (w1 := set_rng _ w).
    destruct (IH (acc + (0 + Z.of_nat (draws (rng w) (cursor (rng w))) `mod` (10 - 0 + 1))) w1)
      as (v & t & w' & -> & Hd & Hq).
    exists v, (EvSleep 1 :: t), w'. split; [done|]. split.
    + destruct Hd as (H1 & H2 & H3 & H4). subst w1. simpl in *.
      repeat split; [done..|lia].
    + destruct Hq as [Hm Hp]. split; simpl; done.
Qed.

Lemma simulate_work_spec g secs w :
  exists v t w',
    _simulate_work g secs w = (Ret v, t, w')
    /\ drawn (Z.to_nat secs) w w' /\ quiet t.
Proof.
  destruct (simulate_loop_spec (Z.to_nat secs) 0 w) as (v & t & w' & Heq & Hd & Hq).
  exists v, (EvLog (LogSimulating g secs) :: t), w'.
  unfold _simulate_work, bind, logger_info, emit. rewrite Heq.
  split; [done|]. split; [done|]. destruct Hq. by split.
Qed.

Lemma to_nat_30 : Z.to_nat 30 = 30%nat.
Proof. reflexivity. Qed.

Lemma pre_processing_spec g w :
  exists v t w',
    pre_processing g 30 w = (Ret v, t, w')
    /\ drawn 30 w w'
    /\ milestones t = [EvLog (LogStarted "pre_processing" g)]
    /\ printed t = [].
Proof.
  destruct (simulate_work_spec g 30 w) as (v & t & w' & Heq & Hd & Hm & Hp).
  rewrite to_nat_30 in Hd.
  exists v, (EvLog (LogStarted "pre_processing" g)
             :: t ++ [EvLog (LogFinished "pre_processing" g)]), w'.
  unfold pre_processing, bind, logger_info, emit, ret. rewrite Heq. simpl.
  split; [reflexivity|]. split; [exact Hd|].
  rewrite milestones_app, printed_app, Hm, Hp. split; reflexivity.
Qed.

Lemma label_at_labels k r : In (label_at k r) labels.
Proof.
  unfold label_at. apply nth_In.
  apply Nat.mod_upper_bound. discriminate.
Qed.

Lemma predict_spec g data w :
  exists t w',
    predict g data 30 w = (Ret (label_at 30 (rng w)), t, w')
    /\ drawn 31 w w'
    /\ milestones t = [EvLog (LogStarted "prediction" g)]
    /\ printed t = [].
Proof.
  destruct (simulate_work_spec g 30 w) as (v & t & w' & Heq & Hd & Hm & Hp).
  rewrite to_nat_30 in Hd.
  exists (EvLog (LogStarted "prediction" g)
          :: t ++ [EvLog (LogFinished "prediction" g)]),
         (set_rng (rng_next (rng w')).2 w').
  unfold predict, bind, logger_info, emit, choice, rng_next. rewrite Heq.
  destruct Hd as (H1 & H2 & H3 & H4).
  split; [|split].
  - unfold label_at. rewrite <- H3, <- H4. reflexivity.
  - unfold drawn, set_rng. cbn [environ limiter rng draws cursor snd].
    rewrite H1, H2, H3, H4. repeat split.
  - unfold milestones. cbn [List.filter is_milestone printed].
    fold (milestones (t ++ [EvLog (LogFinished "prediction" g)])).
    rewrite milestones_app, printed_app, Hm, Hp. split; reflexivity.
Qed.

Lemma post_processing_spec g pred w :
  exists t w',
    post_processing g pred 30 w = (Ret PyNone, t, w')
    /\ drawn 30 w w'
    /\ milestones t = [EvLog (LogStarted "post_processing" g)]
    /\ printed t = [PyStr.upper pred].
Proof.
  destruct (simulate_work_spec g 30 w) as (v & t & w' & Heq & Hd & Hm & Hp).
  rewrite to_nat_30 in Hd.
  exists (EvLog (LogStarted "post_processing" g)
          :: t ++ [EvLog (LogFinished "post_processing" g);
                   EvPrint (PyStr.upper pred)]), w'.
  unfold post_processing, bind, logger_info, emit, ret. rewrite Heq. simpl.
  split; [reflexivity|]. split; [exact Hd|].
  rewrite milestones_app, printed_app, Hm, Hp. split; reflexivity.
Qed.

End UnitFacts.

(** ** Flows *)

Section FlowFacts.

Context {L : Type} `{!LimiterClient L} {py : Interpreter}.

Implicit Types (w : World L) (t : list event).

(** One acquisition scope around a block that returns: the scope either
    fails to obtain a slot and raises, having run nothing, or obtains one
    slot, runs the block and releases the slot. *)
Lemma scope_spec {A} (body : Z -> M L A) (k : nat) (ms : Z -> list event)
    (pr : Rng -> list string) (P : Rng -> A -> Prop) w :
  (forall g w0, exists a tb w1,
     body g w0 = (Ret a, tb, w1) /\ drawn k w0 w1
     /\ milestones tb = ms g /\ printed tb = pr (rng w0) /\ P (rng w0) a) ->
  (exists e t w',
     with_acquire_gpu body w = (Raise e, t, w')
     /\ milestones t = [] /\ printed t = [])
  \/ (exists g n a t w',
        with_acquire_gpu body w = (Ret a, t, w')
        /\ milestones t
           = EvAcquire n 1 probe_timeout_ms None :: ms g ++ [EvRelease n 1]
        /\ printed t = pr (rng w) /\ P (rng w) a
        /\ environ w' = environ w
        /\ draws (rng w') = draws (rng w)
        /\ cursor (rng w') = (k + cursor (rng w))%nat
        /\ exists worker,
             environ w !! "WORKER_ID" = Some worker /\ n = limit_name worker g).
Proof.
  intros Hbody. unfold with_acquire_gpu.
  destruct (acquire_gpu_start_quiet w) as (Hm & Hp & Henv & Hrng).
  destruct (acquire_gpu_start w) as [[[fr|e] t0] w0] eqn:Hstart;
    unfold events, final in *; simpl in *.
  - right.
    destruct (acquire_gpu_start_ret _ _ _ _ Hstart) as (Hl0 & Hw & _).
    pose proof (acquire_gpu_start_name _ _ _ _ Hstart) as Hname.
    destruct (Hbody (fr_gpu fr) w0) as (a & tb & w1 & -> & Hd & Hmb & Hpb & HP).
    destruct Hd as (H1 & H2 & H3 & H4).
    exists (fr_gpu fr), (fr_name fr), a. eexists _, _. split; [reflexivity|].
    rewrite !milestones_app, !printed_app, Hm, Hl0, Hmb, Hp, Hpb, Hrng.
    unfold exit_normal, acquire_gpu_next, concurrency_exit, bind, logger_info, emit.
    simpl. rewrite app_nil_r. split; [done|]. split; [done|].
    split; [by rewrite <- Hrng|].
    rewrite H1, H3, H4, Henv, Hrng. repeat split. by exists (fr_worker fr).
  - left. destruct (acquire_gpu_start_raise _ _ _ _ Hstart) as [Hl _].
    exists e, t0, w0. by rewrite Hm, Hl, Hp.
Qed.

Lemma single_flow_pipeline :
  single_acquisition_prediction_flow = (with_acquire_gpu pipeline;; ret PyNone).
Proof. unfold single_acquisition_prediction_flow, pipeline. reflexivity. Qed.

Lemma pipeline_spec g w0 :
  exists a tb w1,
    pipeline g w0 = (Ret a, tb, w1) /\ drawn 91 w0 w1
    /\ milestones tb = [EvLog (LogStarted "pre_processing" g);
                        EvLog (LogStarted "prediction" g);
                        EvLog (LogStarted "post_processing" g)]
    /\ printed tb = [PyStr.upper (predicted_label (rng w0))]
    /\ a = PyNone.
Proof.
  destruct (pre_processing_spec g w0) as (v & t1 & w1 & Hpre & Hd1 & Hm1 & Hp1).
  destruct (predict_spec g v w1) as (t2 & w2 & Hpred & Hd2 & Hm2 & Hp2).
  destruct (post_processing_spec g (label_at 30 (rng w1)) w2)
    as (t3 & w3 & Hpost & Hd3 & Hm3 & Hp3).
  exists PyNone, (t1 ++ t2 ++ t3), w3.
  unfold pipeline.
  rewrite (bind_ret_eq _ _ _ _ _ _ Hpre), (bind_ret_eq _ _ _ _ _ _ Hpred), Hpost.
  split; [reflexivity|]. split.
  { apply (drawn_trans 30 61 w0 w1 w3 Hd1).
    apply (drawn_trans 31 30 w1 w2 w3 Hd2 Hd3). }
  rewrite !milestones_app, !printed_app, Hm1, Hm2, Hm3, Hp1, Hp2, Hp3.
  split; [reflexivity|]. split; [|reflexivity].
  destruct Hd1 as (_ & _ & Hdr & Hcur).
  unfold predicted_label, label_at. rewrite Hdr, Hcur.
  replace (30 + (30 + cursor (rng w0)))%nat with (60 + cursor (rng w0))%nat by lia.
  reflexivity.
Qed.

Lemma paired_of_milestones t ms :
  milestones t = ms -> paired (lease_events ms) = true ->
  paired (lease_events t) = true.
Proof. intros <-. by rewrite lease_events_milestones. Qed.

Lemma single_flow_cases w :
  (exists e t w',
     single_acquisition_prediction_flow w = (Raise e, t, w')
     /\ milestones t = [] /\ printed t = [])
  \/ (exists worker g t w',
        single_acquisition_prediction_flow w = (Ret PyNone, t, w')
        /\ environ w !! "WORKER_ID" = Some worker
        /\ milestones t = single_milestones (limit_name worker g) g
        /\ printed t = [PyStr.upper (predicted_label (rng w))]).
Proof.
  rewrite single_flow_pipeline.
  destruct (scope_spec pipeline 91
              (fun g => [EvLog (LogStarted "pre_processing" g);
                         EvLog (LogStarted "prediction" g);
                         EvLog (LogStarted "post_processing" g)])
              (fun r => [PyStr.upper (predicted_label r)])
              (fun _ a => a = PyNone) w)
    as [(e & t & w' & Heq & Hm & Hp)
       |(g & n & a & t & w' & Heq & Hm & Hp & -> & _ & _ & _ & worker & Hw & ->)].
  { intros g w0. destruct (pipeline_spec g w0) as (a & tb & w1 & ? & ? & ? & ? & ?).
    exists a, tb, w1. repeat (split; [assumption|]). assumption. }
  - left. exists e, t, w'. by rewrite (bind_raise_eq _ _ _ _ _ _ Heq).
  - right. exists worker, g, t, w'.
    rewrite (bind_ret_eq _ _ _ _ _ _ Heq). unfold ret.
    by rewrite app_nil_r.
Qed.

Lemma task_flow_cases w :
  (exists e t w',
     task_acquisition_prediction_flow w = (Raise e, t, w')
     /\ paired (lease_events t) = true)
  \/ (exists worker g1 g2 g3 t w',
        task_acquisition_prediction_flow w = (Ret PyNone, t, w')
        /\ environ w !! "WORKER_ID" = Some worker
        /\ milestones t
           = task_milestones (limit_name worker g1) (limit_name worker g2)
               (limit_name worker g3) g1 g2 g3
        /\ printed t = [PyStr.upper (predicted_label (rng w))]).
Proof.
  unfold task_acquisition_prediction_flow.
  destruct (scope_spec (fun g => pre_processing g 30) 30
              (fun g => [EvLog (LogStarted "pre_processing" g)])
              (fun _ => []) (fun _ _ => True) w)
    as [(e & t1 & w1 & Heq1 & Hm1 & Hp1)
       |(g1 & n1 & data & t1 & w1 & Heq1 & Hm1 & Hp1 & _ & Henv1 & Hdr1 & Hcur1
           & worker & Hw & Hn1)].
  { intros g w0. destruct (pre_processing_spec g w0) as (v & tb & w' & ? & ? & ? & ?).
    exists v, tb, w'. repeat (split; [assumption|]). exact I. }
  { left. exists e, t1, w1. rewrite (bind_raise_eq _ _ _ _ _ _ Heq1).
    split; [done|]. by apply (paired_of_milestones _ _ Hm1). }
  rewrite (bind_ret_eq _ _ _ _ _ _ Heq1).
  destruct (scope_spec (fun g => predict g data 30) 31
              (fun g => [EvLog (LogStarted "prediction" g)])
              (fun _ => []) (fun r a => a = label_at 30 r) w1)
    as [(e & t2 & w2 & Heq2 & Hm2 & Hp2)
       |(g2 & n2 & pred & t2 & w2 & Heq2 & Hm2 & Hp2 & Hpred & Henv2 & Hdr2 & Hcur2
           & worker2 & Hw2 & Hn2)].
  { intros g w0. destruct (predict_spec g data w0) as (tb & w' & ? & ? & ? & ?).
    exists (label_at 30 (rng w0)), tb, w'. repeat (split; [assumption|]).
    reflexivity. }
  { left. rewrite (bind_raise_eq _ _ _ _ _ _ Heq2).
    exists e, (t1 ++ t2), w2. split; [done|].
    rewrite <- lease_events_milestones, milestones_app, Hm1, Hm2.
    simpl. by rewrite !bool_decide_eq_true_2. }
  rewrite (bind_ret_eq _ _ _ _ _ _ Heq2).
  destruct (scope_spec (fun g => post_processing g pred 30) 30
              (fun g => [EvLog (LogStarted "post_processing" g)])
              (fun _ => [PyStr.upper pred]) (fun _ a => a = PyNone) w2)
    as [(e & t3 & w3 & Heq3 & Hm3 & Hp3)
       |(g3 & n3 & a & t3 & w3 & Heq3 & Hm3 & Hp3 & -> & Henv3 & _ & _
           & worker3 & Hw3 & Hn3)].
  { intros g w0. destruct (post_processing_spec g pred w0) as (tb & w' & ? & ? & ? & ?).
    exists PyNone, tb, w'. repeat (split; [assumption|]). reflexivity. }
  { left. rewrite (bind_raise_eq _ _ _ _ _ _ Heq3).
    exists e, (t1 ++ t2 ++ t3), w3. split; [done|].
    rewrite <- lease_events_milestones, !milestones_app, Hm1, Hm2, Hm3.
    simpl. by rewrite !bool_decide_eq_true_2. }
  right. rewrite (bind_ret_eq _ _ _ _ _ _ Heq3). unfold ret.
  rewrite Henv1 in Hw2. rewrite Henv2, Henv1 in Hw3.
  assert (worker2 = worker) as -> by congruence.
  assert (worker3 = worker) as -> by congruence.
  exists worker, g1, g2, g3. eexists _, _. split; [reflexivity|].
  split; [done|].
  rewrite !milestones_app, !printed_app, Hm1, Hm2, Hm3, Hp1, Hp2, Hp3, Hn1, Hn2, Hn3.
  split; [reflexivity|].
  rewrite Hpred. unfold predicted_label, label_at. rewrite Hdr1, Hcur1.
  replace (30 + (30 + cursor (rng w)))%nat with (60 + cursor (rng w))%nat by lia.
  reflexivity.
Qed.

Lemma scope_returning {A} (body : Z -> M L A) w fr t0 w0 a tb w1 :
  acquire_gpu_start w = (Ret fr, t0, w0) ->
  body (fr_gpu fr) w0 = (Ret a, tb, w1) ->
  with_acquire_gpu body w
  = (Ret a,
     t0 ++ tb ++ [EvLog (LogReleased (fr_gpu fr) (fr_worker fr));
                  EvRelease (fr_name fr) 1],
     released fr w1).
Proof. intros Hs Hb. unfold with_acquire_gpu. by rewrite Hs, Hb. Qed.

Lemma scope_not_entered {A} (body : Z -> M L A) w e t0 w0 :
  acquire_gpu_start w = (Raise e, t0, w0) ->
  with_acquire_gpu body w = (Raise e, t0, w0).
Proof. intros Hs. unfold with_acquire_gpu. by rewrite Hs. Qed.

Lemma acquire_gpu_start_milestones w fr t0 w0 :
  acquire_gpu_start w = (Ret fr, t0, w0) ->
  milestones t0 = [EvAcquire (fr_name fr) 1 probe_timeout_ms None]
  /\ environ w0 = environ w.
Proof.
  intros Hs. destruct (acquire_gpu_start_quiet w) as (Hm & _ & He & _).
  destruct (acquire_gpu_start_ret _ _ _ _ Hs) as (Hl & _).
  rewrite Hs in Hm, He. unfold events, final in *. simpl in *.
  by rewrite Hm, Hl.
Qed.

Lemma acquire_gpu_start_no_milestone w e t0 w0 :
  acquire_gpu_start w = (Raise e, t0, w0) ->
  milestones t0 = [] /\ lease_events t0 = [].
Proof.
  intros Hs. destruct (acquire_gpu_start_quiet w) as (Hm & _).
  destruct (acquire_gpu_start_raise _ _ _ _ Hs) as (Hl & _).
  rewrite Hs in Hm. unfold events in *. simpl in *. by rewrite Hm, Hl.
Qed.

(** The three scopes of the per-task flow, one after the other. *)
Lemma pre_processing_scope w fr t0 w0 :
  acquire_gpu_start w = (Ret fr, t0, w0) ->
  exists v t,
    with_acquire_gpu (fun gpu_id => pre_processing gpu_id 30) w
    = (Ret v, t, released fr (after_draws 30 w0))
    /\ milestones t = [EvAcquire (fr_name fr) 1 probe_timeout_ms None;
                       EvLog (LogStarted "pre_processing" (fr_gpu fr));
                       EvRelease (fr_name fr) 1].
Proof.
  intros Hs. destruct (acquire_gpu_start_milestones _ _ _ _ Hs) as [Hm0 _].
  destruct (pre_processing_spec (fr_gpu fr) w0) as (v & tb & w1 & Hb & Hd & Hm & _).
  apply drawn_exact in Hd. subst w1.
  pose proof (scope_returning (fun gpu_id => pre_processing gpu_id 30)
                w fr t0 w0 v tb (after_draws 30 w0) Hs Hb) as Heq.
  exists v. eexists. split; [exact Heq|].
  rewrite !milestones_app, Hm0, Hm. reflexivity.
Qed.

Lemma predict_scope data w fr t0 w0 :
  acquire_gpu_start w = (Ret fr, t0, w0) ->
  exists t,
    with_acquire_gpu (fun gpu_id => predict gpu_id data 30) w
    = (Ret (label_at 30 (rng w0)), t, released fr (after_draws 31 w0))
    /\ milestones t = [EvAcquire (fr_name fr) 1 probe_timeout_ms None;
                       EvLog (LogStarted "prediction" (fr_gpu fr));
                       EvRelease (fr_name fr) 1].
Proof.
  intros Hs. destruct (acquire_gpu_start_milestones _ _ _ _ Hs) as [Hm0 _].
  destruct (predict_spec (fr_gpu fr) data w0) as (tb & w1 & Hb & Hd & Hm & _).
  apply drawn_exact in Hd. subst w1.
  pose proof (scope_returning (fun gpu_id => predict gpu_id data 30)
                w fr t0 w0 (label_at 30 (rng w0)) tb (after_draws 31 w0) Hs Hb)
    as Heq.
  eexists. split; [exact Heq|].
  rewrite !milestones_app, Hm0, Hm. reflexivity.
Qed.

Lemma post_processing_scope pred w fr t0 w0 :
  acquire_gpu_start w = (Ret fr, t0, w0) ->
  exists t,
    with_acquire_gpu (fun gpu_id => post_processing gpu_id pred 30) w
    = (Ret PyNone, t, released fr (after_draws 30 w0))
    /\ milestones t = [EvAcquire (fr_name fr) 1 probe_timeout_ms None;
                       EvLog (LogStarted "post_processing" (fr_gpu fr));
                       EvRelease (fr_name fr) 1].
Proof.
  intros Hs. destruct (acquire_gpu_start_milestones _ _ _ _ Hs) as [Hm0 _].
  destruct (post_processing_spec (fr_gpu fr) pred w0) as (tb & w1 & Hb & Hd & Hm & _).
  apply drawn_exact in Hd. subst w1.
  pose proof (scope_returning (fun gpu_id => post_processing gpu_id pred 30)
                w fr t0 w0 PyNone tb (after_draws 30 w0) Hs Hb) as Heq.
  eexists. split; [exact Heq|].
  rewrite !milestones_app, Hm0, Hm. reflexivity.
Qed.

Lemma pipeline_scope w fr t0 w0 :
  acquire_gpu_start w = (Ret fr, t0, w0) ->
  exists t,
    with_acquire_gpu pipeline w
    = (Ret PyNone, t, released fr (after_draws 91 w0))
    /\ milestones t = single_milestones (fr_name fr) (fr_gpu fr).
Proof.
  intros Hs. destruct (acquire_gpu_start_milestones _ _ _ _ Hs) as [Hm0 _].
  destruct (pipeline_spec (fr_gpu fr) w0) as (a & tb & w1 & Hb & Hd & Hm & _ & ->).
  apply drawn_exact in Hd. subst w1.
  pose proof (scope_returning pipeline w fr t0 w0 PyNone tb (after_draws 91 w0)
                Hs Hb) as Heq.
  eexists. split; [exact Heq|].
  rewrite !milestones_app, Hm0, Hm. reflexivity.
Qed.

(** C7. The whole-pipeline flow makes one acquisition: if it fails the run
    ends with its error, and if it yields a slot the three units run on
    that GPU, the slot is released and the run completes.  The per-task
    flow makes up to three acquisitions, each started from the state in
    which the slot before it has been released: each one that yields a
    slot is followed by one unit and the release of the slot, the first one
    that fails ends the run, and when the three have yielded the run
    completes after three obtain-run-release cycles, possibly on different
    GPUs.  In every run of either flow a slot is obtained only while none is
    held, and every slot obtained is released. *)
Theorem flows_hold_one_lease_at_a_time w :
  (one_lease_at_a_time None (events (single_acquisition_prediction_flow w)) = true
   /\ paired (lease_events (events (single_acquisition_prediction_flow w))) = true
   /\ one_lease_at_a_time None (events (task_acquisition_prediction_flow w)) = true
   /\ paired (lease_events (events (task_acquisition_prediction_flow w))) = true)
  /\ match acquire_gpu_start w with
     | (Raise e, t0, w0) =>
         single_acquisition_prediction_flow w = (Raise e, t0, w0)
         /\ lease_events t0 = []
     | (Ret fr, _, w0) =>
         exists t,
           single_acquisition_prediction_flow w
           = (Ret PyNone, t, released fr (after_draws 91 w0))
           /\ milestones t = single_milestones (fr_name fr) (fr_gpu fr)
           /\ environ w !! "WORKER_ID" = Some (fr_worker fr)
           /\ fr_name fr = limit_name (fr_worker fr) (fr_gpu fr)
     end
  /\ match acquire_gpu_start w with
     | (Raise e, t1, w1) =>
         task_acquisition_prediction_flow w = (Raise e, t1, w1)
         /\ lease_events t1 = []
     | (Ret fr1, _, w1) =>
         match acquire_gpu_start (released fr1 (after_draws 30 w1)) with
         | (Raise e, _, w2) =>
             exists t,
               task_acquisition_prediction_flow w = (Raise e, t, w2)
               /\ milestones t
                  = [EvAcquire (fr_name fr1) 1 probe_timeout_ms None;
                     EvLog (LogStarted "pre_processing" (fr_gpu fr1));
                     EvRelease (fr_name fr1) 1]
         | (Ret fr2, _, w2) =>
             match acquire_gpu_start (released fr2 (after_draws 31 w2)) with
             | (Raise e, _, w3) =>
                 exists t,
                   task_acquisition_prediction_flow w = (Raise e, t, w3)
                   /\ milestones t
                      = [EvAcquire (fr_name fr1) 1 probe_timeout_ms None;
                         EvLog (LogStarted "pre_processing" (fr_gpu fr1));
                         EvRelease (fr_name fr1) 1;
                         EvAcquire (fr_name fr2) 1 probe_timeout_ms None;
                         EvLog (LogStarted "prediction" (fr_gpu fr2));
                         EvRelease (fr_name fr2) 1]
             | (Ret fr3, _, w3) =>
                 exists t,
                   task_acquisition_prediction_flow w
                   = (Ret PyNone, t, released fr3 (after_draws 30 w3))
                   /\ milestones t
                      = task_milestones (fr_name fr1) (fr_name fr2) (fr_name fr3)
                          (fr_gpu fr1) (fr_gpu fr2) (fr_gpu fr3)
             end
         end
     end.
Proof.
  split; [|split].
  - assert (forall t, paired (lease_events t) = true ->
              one_lease_at_a_time None t = true /\ paired (lease_events t) = true)
      as Hboth by (intros t Hp; split; [by apply paired_one_lease|exact Hp]).
    destruct (single_flow_cases w)
      as [(e & t & w' & -> & Hm & _)|(worker & g & t & w' & -> & Hw & Hm & _)];
      destruct (task_flow_cases w)
        as [(e2 & t2 & w2 & -> & Hp2)
           |(worker2 & g1 & g2 & g3 & t2 & w2 & -> & Hw2 & Hm2 & _)];
      unfold events; simpl.
    + destruct (Hboth t) as [? ?];
        [apply (paired_of_milestones _ _ Hm); reflexivity|].
      destruct (Hboth t2 Hp2) as [? ?]. by repeat split.
    + destruct (Hboth t) as [? ?];
        [apply (paired_of_milestones _ _ Hm); reflexivity|].
      destruct (Hboth t2) as [? ?].
      { apply (paired_of_milestones _ _ Hm2). simpl.
        by rewrite !bool_decide_eq_true_2. }
      by repeat split.
    + destruct (Hboth t) as [? ?].
      { apply (paired_of_milestones _ _ Hm). simpl.
        by rewrite !bool_decide_eq_true_2. }
      destruct (Hboth t2 Hp2) as [? ?]. by repeat split.
    + destruct (Hboth t) as [? ?].
      { apply (paired_of_milestones _ _ Hm). simpl.
        by rewrite !bool_decide_eq_true_2. }
      destruct (Hboth t2) as [? ?].
      { apply (paired_of_milestones _ _ Hm2). simpl.
        by rewrite !bool_decide_eq_true_2. }
      by repeat split.
  - rewrite single_flow_pipeline.
    destruct (acquire_gpu_start w) as [[[fr|e] t0] w0] eqn:Hs.
    + destruct (pipeline_scope _ _ _ _ Hs) as (t & Heq & Hm).
      destruct (acquire_gpu_start_ret _ _ _ _ Hs) as (_ & Hw & _).
      pose proof (acquire_gpu_start_name _ _ _ _ Hs) as Hn.
      exists t. rewrite (bind_ret_eq _ _ _ _ _ _ Heq). unfold ret.
      rewrite app_nil_r. split; [reflexivity|]. split; [exact Hm|].
      split; [exact Hw|exact Hn].
    + rewrite (bind_raise_eq _ _ _ _ _ _ (scope_not_entered _ _ _ _ _ Hs)).
      split; [reflexivity|].
      by destruct (acquire_gpu_start_no_milestone _ _ _ _ Hs).
  - unfold task_acquisition_prediction_flow.
    destruct (acquire_gpu_start w) as [[[fr1|e] t1] w1] eqn:Hs1.
    2:{ rewrite (bind_raise_eq _ _ _ _ _ _ (scope_not_entered _ _ _ _ _ Hs1)).
        split; [reflexivity|].
        by destruct (acquire_gpu_start_no_milestone _ _ _ _ Hs1). }
    destruct (pre_processing_scope _ _ _ _ Hs1) as (data & s1 & Heq1 & Hm1).
    rewrite (bind_ret_eq _ _ _ _ _ _ Heq1).
    destruct (acquire_gpu_start (released fr1 (after_draws 30 w1)))
      as [[[fr2|e] t2] w2] eqn:Hs2.
    2:{ rewrite (bind_raise_eq _ _ _ _ _ _ (scope_not_entered _ _ _ _ _ Hs2)).
        eexists. split; [reflexivity|].
        destruct (acquire_gpu_start_no_milestone _ _ _ _ Hs2) as [Hm2 _].
        by rewrite milestones_app, Hm1, Hm2. }
    destruct (predict_scope data _ _ _ _ Hs2) as (s2 & Heq2 & Hm2).
    rewrite (bind_ret_eq _ _ _ _ _ _ Heq2).
    destruct (acquire_gpu_start (released fr2 (after_draws 31 w2)))
      as [[[fr3|e] t3] w3] eqn:Hs3.
    2:{ rewrite (bind_raise_eq _ _ _ _ _ _ (scope_not_entered _ _ _ _ _ Hs3)).
        eexists. split; [reflexivity|].
        destruct (acquire_gpu_start_no_milestone _ _ _ _ Hs3) as [Hm3 _].
        by rewrite !milestones_app, Hm1, Hm2, Hm3. }
    destruct (post_processing_scope (label_at 30 (rng w2)) _ _ _ _ Hs3)
      as (s3 & Heq3 & Hm3).
    rewrite (bind_ret_eq _ _ _ _ _ _ Heq3). unfold ret.
    eexists. split; [reflexivity|].
    rewrite !milestones_app, Hm1, Hm2, Hm3. reflexivity.
Qed.

(** C8 (as amended). A run of either flow that completes returns [None];
    the label chosen by the predict unit is printed in upper case by the
    post-processing unit.  That label is one of the six of the list and is
    determined by the random source alone, so both flows print the same
    line whatever GPUs they were given. *)
Theorem flows_print_the_predicted_label w :
  In (predicted_label (rng w)) labels
  /\ match outcome (single_acquisition_prediction_flow w) with
     | Ret v =>
         v = PyNone
         /\ printed (events (single_acquisition_prediction_flow w))
            = [PyStr.upper (predicted_label (rng w))]
     | Raise _ => printed (events (single_acquisition_prediction_flow w)) = []
     end
  /\ match outcome (task_acquisition_prediction_flow w) with
     | Ret v =>
         v = PyNone
         /\ printed (events (task_acquisition_prediction_flow w))
            = [PyStr.upper (predicted_label (rng w))]
     | Raise _ => True
     end.
Proof.
  split; [apply label_at_labels|]. split.
  - by destruct (single_flow_cases w)
      as [(e & t & w' & -> & _ & Hp)|(worker & g & t & w' & -> & _ & _ & Hp)].
  - by destruct (task_flow_cases w)
      as [(e & t & w' & -> & _)|(worker & g1 & g2 & g3 & t & w' & -> & _ & _ & Hp)].
Qed.

End FlowFacts.

(** ** Concrete runs *)

(** The runs below are those of CPython 3.11, unless they name another
    interpreter. *)
#[local] Existing Instance cpython_3_11.

Example probe_order_2_0_1 :
  probed_names (events (acquire_gpu_start
    (world_of {[ "WORKER_ID" := "w"; "WORKER_GPU_IDS" := "2,0,1" ]}
              {[ "gpu-w-2" := SlotBusy; "gpu-w-0" := SlotBusy; "gpu-w-1" := SlotBusy ]})))
  = ["gpu-w-2"; "gpu-w-0"; "gpu-w-1"].
Proof. vm_compute. reflexivity. Qed.

Example scope_normal_run :
  lease_events (events (with_acquire_gpu (fun g => ret g) world_A))
  = [EvAcquire "gpu-worker-1-1" 1 100 None; EvRelease "gpu-worker-1-1" 1]
  /\ outcome (with_acquire_gpu (fun g => ret g) world_A) = Ret 1.
Proof. vm_compute. split; reflexivity. Qed.

Example scope_failing_block :
  events (with_acquire_gpu
            (fun _ => raise (OtherException "ZeroDivisionError") : M _ unit) world_A)
  = [EvLog (LogWorkerGpus "worker-1" [0; 1]);
     EvLog (LogLimitNames [(0, "gpu-worker-1-0"); (1, "gpu-worker-1-1")]);
     EvAcquire "gpu-worker-1-0" 1 100 (Some AcquireConcurrencySlotTimeoutError);
     EvLog (LogBusy 0);
     EvAcquire "gpu-worker-1-1" 1 100 None;
     EvLog (LogAcquired 1 "worker-1");
     EvRelease "gpu-worker-1-1" 1]
  /\ outcome (with_acquire_gpu
                (fun _ => raise (OtherException "ZeroDivisionError") : M _ unit) world_A)
     = Raise (OtherException "ZeroDivisionError").
Proof. vm_compute. split; reflexivity. Qed.

Example scope_block_timeout :
  events (with_acquire_gpu block_timeout world_C)
  = [EvLog (LogWorkerGpus "worker-1" [0; 1]);
     EvLog (LogLimitNames [(0, "gpu-worker-1-0"); (1, "gpu-worker-1-1")]);
     EvAcquire "gpu-worker-1-0" 1 100 None;
     EvLog (LogAcquired 0 "worker-1");
     EvRelease "gpu-worker-1-0" 1;
     EvLog (LogBusy 0);
     EvAcquire "gpu-worker-1-1" 1 100 None;
     EvLog (LogAcquired 1 "worker-1")]
  /\ outcome (with_acquire_gpu block_timeout world_C)
     = Raise (RuntimeError "generator didn't stop after throw()").
Proof. vm_compute. split; reflexivity. Qed.

(** The same run on CPython 3.12 ends with one more event, the release of
    the second slot. *)
Example scope_block_timeout_3_12 :
  events (with_acquire_gpu (py := cpython_3_12) block_timeout world_C)
  = events (with_acquire_gpu (py := cpython_3_11) block_timeout world_C)
    ++ [EvRelease "gpu-worker-1-1" 1].
Proof. vm_compute. reflexivity. Qed.

(** With a single GPU the loop has nothing left to probe and the scope ends
    with the exhaustion error, on every interpreter. *)
Example scope_block_timeout_one_gpu :
  forall py : Interpreter,
    outcome (with_acquire_gpu block_timeout
               (world_of {[ "WORKER_ID" := "worker-1"; "WORKER_GPU_IDS" := "0" ]}
                         table_C))
    = Raise (RuntimeError "No available GPUs on worker worker-1").
Proof. intros [[]]; vm_compute; reflexivity. Qed.

(** C2 (a defect of the code). The release is not always invoked before the
    scope is left.  With both GPUs of [worker-1] free and a protected block
    that raises the timeout exception, the scope releases the slot bound to
    the block, obtains the slot of GPU 1 and ends with the error of a
    generator that did not stop: on CPython 3.11 that slot is still held
    then, with no release among the events; on CPython 3.12 the generator
    is closed first and the slot is released. *)
Theorem contention_in_block_leaves_slot_held :
  let run_3_11 := with_acquire_gpu (py := cpython_3_11) block_timeout world_C in
  let run_3_12 := with_acquire_gpu (py := cpython_3_12) block_timeout world_C in
  (outcome run_3_11 = Raise (RuntimeError "generator didn't stop after throw()")
   /\ lease_events (events run_3_11)
      = [EvAcquire "gpu-worker-1-0" 1 100 None;
         EvRelease "gpu-worker-1-0" 1;
         EvAcquire "gpu-worker-1-1" 1 100 None]
   /\ limiter (final run_3_11) !! "gpu-worker-1-0" = Some SlotFree
   /\ limiter (final run_3_11) !! "gpu-worker-1-1" = Some SlotBusy)
  /\ (outcome run_3_12 = Raise (RuntimeError "generator didn't stop after throw()")
      /\ lease_events (events run_3_12)
         = [EvAcquire "gpu-worker-1-0" 1 100 None;
            EvRelease "gpu-worker-1-0" 1;
            EvAcquire "gpu-worker-1-1" 1 100 None;
            EvRelease "gpu-worker-1-1" 1]
      /\ limiter (final run_3_12) !! "gpu-worker-1-0" = Some SlotFree
      /\ limiter (final run_3_12) !! "gpu-worker-1-1" = Some SlotFree).
Proof. vm_compute. repeat split; reflexivity. Qed.

(** A per-task run in which other workers take and free GPUs between the
    scopes: the three units run on GPUs 0, 1 and 0. *)
Example task_flow_different_gpus :
  milestones (events (task_acquisition_prediction_flow
    {| environ := env_worker_1;
       limiter := [None; Some AcquireConcurrencySlotTimeoutError; None; None];
       rng := rng_0 |}))
  = task_milestones "gpu-worker-1-0" "gpu-worker-1-1" "gpu-worker-1-0" 0 1 0.
Proof. vm_compute. reflexivity. Qed.

Example single_flow_run :
  milestones (events (single_acquisition_prediction_flow world_A))
  = single_milestones "gpu-worker-1-1" 1
  /\ printed (events (single_acquisition_prediction_flow world_A)) = ["CAT"].
Proof. vm_compute. split; reflexivity. Qed.

(** ** Instances of the theorems *)

Lemma acquire_first_fit_witness :
  outcome (acquire_gpu_start world_A)
  = Ret {| fr_worker := "worker-1"; fr_gpu := 1;
           fr_name := "gpu-worker-1-1"; fr_rest := [] |}
  /\ probed_names (events (acquire_gpu_start world_A))
     = ["gpu-worker-1-0"; "gpu-worker-1-1"].
Proof.
  assert (environ world_A !! "WORKER_ID" = Some "worker-1") as Hw
    by (vm_compute; reflexivity).
  assert (get_worker_gpu_ids (environ world_A) = Ret [0; 1]) as Hids
    by (vm_compute; reflexivity).
  destruct (acquire_first_fit world_A "worker-1" [0; 1] Hw Hids) as [_ H].
  destruct (H [0] 1 [] table_A (<["gpu-worker-1-1" := SlotBusy]> table_A))
    as (H1 & H2 & _).
  - reflexivity.
  - vm_compute. reflexivity.
  - vm_compute. reflexivity.
  - split; [exact H1|exact H2].
Defined.

(** C3, as stated, fails in scenario B: the error names the worker but not
    GPU 0. *)
Lemma exhausted_error_omits_candidates :
  ~ exists msg,
      outcome (acquire_gpu_start world_B) = Raise (RuntimeError msg)
      /\ PyStr.contains "worker-1" msg = true
      /\ names_candidates [0; 1] msg = true.
Proof.
  intros (msg & Hmsg & _ & Hnames).
  vm_compute in Hmsg. injection Hmsg as <-.
  vm_compute in Hnames. discriminate.
Qed.

Lemma exhausted_error_names_worker_witness :
  outcome (acquire_gpu_start world_B)
  = Raise (RuntimeError "No available GPUs on worker worker-1")
  /\ In (EvLog (LogWorkerGpus "worker-1" [0; 1])) (events (acquire_gpu_start world_B)).
Proof.
  assert (environ world_B !! "WORKER_ID" = Some "worker-1") as Hw
    by (vm_compute; reflexivity).
  assert (get_worker_gpu_ids (environ world_B) = Ret [0; 1]) as Hids
    by (vm_compute; reflexivity).
  assert (contended (map (limit_name "worker-1") [0; 1]) (limiter world_B)
          = Some table_B) as Hc by (vm_compute; reflexivity).
  destruct (exhausted_error_names_worker world_B "worker-1" [0; 1] table_B Hw Hids Hc)
    as (H1 & _ & H3).
  split; [exact H1|exact H3].
Defined.

Lemma acquire_bounded_witness :
  (length (probed_names (events (acquire_gpu_start world_B))) <= 2)%nat
  /\ timeout_budget (events (acquire_gpu_start world_B)) <= 2 * 100
  /\ outcome (acquire_gpu_start world_B)
     = Raise (RuntimeError "No available GPUs on worker worker-1")
  /\ lease_events (events (acquire_gpu_start world_B)) = [].
Proof.
  assert (environ world_B !! "WORKER_ID" = Some "worker-1") as Hw
    by (vm_compute; reflexivity).
  assert (get_worker_gpu_ids (environ world_B) = Ret [0; 1]) as Hids
    by (vm_compute; reflexivity).
  assert (contended (map (limit_name "worker-1") [0; 1]) (limiter world_B)
          = Some table_B) as Hc by (vm_compute; reflexivity).
  destruct (acquire_bounded world_B "worker-1" [0; 1] Hw Hids)
    as (H1 & _ & _ & _ & H5 & H6).
  destruct (H6 table_B Hc) as (H7 & _ & H9 & _).
  split; [exact H1|]. split; [exact H5|]. split; [exact H7|exact H9].
Defined.

(** C5, as stated, fails when the service cannot be reached for GPU 0: the
    client reports it in a class the loop catches, so that the run goes on
    to GPU 1 and yields it instead of ending at the first probe. *)
Lemma service_failure_falls_through :
  limiter world_F !! "gpu-worker-1-0"
  = Some (SlotFault (client_exception ServiceUnreachable))
  /\ probed_names (events (acquire_gpu_start world_F))
     = ["gpu-worker-1-0"; "gpu-worker-1-1"]
  /\ ~ exists e,
         outcome (acquire_gpu_start world_F) = Raise e
         /\ probed_names (events (acquire_gpu_start world_F)) = ["gpu-worker-1-0"].
Proof.
  split; [vm_compute; reflexivity|]. split; [vm_compute; reflexivity|].
  intros (e & Hres & _). vm_compute in Hres. discriminate.
Qed.

Lemma only_contention_falls_through_witness :
  outcome (acquire_gpu_start world_D) = Raise (OtherException "KeyboardInterrupt")
  /\ probed_names (events (acquire_gpu_start world_D)) = ["gpu-worker-1-0"]
  /\ lease_events (events (acquire_gpu_start world_D)) = [].
Proof.
  assert (environ world_D !! "WORKER_ID" = Some "worker-1") as Hw
    by (vm_compute; reflexivity).
  assert (get_worker_gpu_ids (environ world_D) = Ret [0; 1]) as Hids
    by (vm_compute; reflexivity).
  destruct (only_contention_falls_through world_D "worker-1" [0; 1] Hw Hids)
    as (_ & _ & H).
  assert (try_acquire (limit_name "worker-1" 0) 1 probe_timeout_ms table_D
          = (Some (OtherException "KeyboardInterrupt"), table_D)) as Hg
    by (vm_compute; reflexivity).
  destruct (H [] 0 [1] table_D table_D (OtherException "KeyboardInterrupt")
              eq_refl eq_refl Hg) as (H1 & H2 & H3 & _).
  split; [exact H1|]. split; [exact H2|exact H3].
Defined.

(** C6, as stated, fails for a worker id that is set but empty: nothing is
    raised and the limiter is probed under the name [gpu--0]. *)
Lemma empty_worker_id_is_accepted :
  environ world_E !! "WORKER_ID" = Some ""
  /\ ~ exists e,
         outcome (acquire_gpu_start world_E) = Raise e
         /\ is_value_error e = true
         /\ probed_names (events (acquire_gpu_start world_E)) = [].
Proof.
  split; [vm_compute; reflexivity|].
  intros (e & Hres & _). vm_compute in Hres. discriminate.
Qed.

Lemma configuration_error_before_limiter_witness :
  exists e,
    is_value_error e = true
    /\ acquire_gpu_start world_G = (Raise e, [], world_G).
Proof.
  destruct (configuration_error_before_limiter world_G) as (e & He & Heq & _).
  - right. right. right. exists "0,a", "a".
    split; [vm_compute; reflexivity|]. split; [|reflexivity].
    right. left. reflexivity.
  - exists e. split; [exact He|exact Heq].
Defined.

(** C8, as stated, fails: a run that completes returns [None], not a
    label. *)
Lemma flows_return_none :
  outcome (single_acquisition_prediction_flow world_A) = Ret PyNone
  /\ outcome (task_acquisition_prediction_flow world_A) = Ret PyNone
  /\ ~ exists label,
         outcome (single_acquisition_prediction_flow world_A) = Ret (PyStr label)
         \/ outcome (task_acquisition_prediction_flow world_A) = Ret (PyStr label).
Proof.
  split; [vm_compute; reflexivity|]. split; [vm_compute; reflexivity|].
  intros (label & [H|H]); vm_compute in H; discriminate.
Qed.

Lemma block_contention_resumes_probing_witness :
  exists e' t_rest,
    outcome (with_acquire_gpu block_timeout world_C) = Raise e'
    /\ e' <> AcquireConcurrencySlotTimeoutError
    /\ events (with_acquire_gpu block_timeout world_C)
       = events (acquire_gpu_start world_C)
         ++ [] ++ EvRelease "gpu-worker-1-0" 1 :: EvLog (LogBusy 0) :: t_rest
    /\ exists a t', t_rest = EvAcquire "gpu-worker-1-1" 1 probe_timeout_ms a :: t'.
Proof.
  pose (fr := {| fr_worker := "worker-1"; fr_gpu := 0;
                 fr_name := "gpu-worker-1-0";
                 fr_rest := [(1, "gpu-worker-1-1")] |}).
  assert (acquire_gpu_start world_C
          = (Ret fr, events (acquire_gpu_start world_C),
             final (acquire_gpu_start world_C))) as Hstart
    by (vm_compute; reflexivity).
  destruct (block_contention_resumes_probing block_timeout world_C fr
              (events (acquire_gpu_start world_C))
              (final (acquire_gpu_start world_C))
              AcquireConcurrencySlotTimeoutError []
              (final (acquire_gpu_start world_C)) Hstart eq_refl eq_refl)
    as (e' & t_rest & H1 & H2 & H3 & _ & H5 & _).
  exists e', t_rest. split; [exact H1|]. split; [exact H2|]. split; [exact H3|].
  exact (H5 1 "gpu-worker-1-1" [] eq_refl).
Defined.

Lemma flows_hold_one_lease_at_a_time_witness :
  (outcome (single_acquisition_prediction_flow world_C) = Ret PyNone
   /\ milestones (events (single_acquisition_prediction_flow world_C))
      = single_milestones "gpu-worker-1-0" 0
   /\ limiter (final (single_acquisition_prediction_flow world_C))
        !! "gpu-worker-1-0" = Some SlotFree)
  /\ (outcome (task_acquisition_prediction_flow world_C) = Ret PyNone
      /\ milestones (events (task_acquisition_prediction_flow world_C))
         = task_milestones "gpu-worker-1-0" "gpu-worker-1-0" "gpu-worker-1-0" 0 0 0
      /\ limiter (final (task_acquisition_prediction_flow world_C))
           !! "gpu-worker-1-0" = Some SlotFree).
Proof.
  pose (fr := {| fr_worker := "worker-1"; fr_gpu := 0;
                 fr_name := "gpu-worker-1-0";
                 fr_rest := [(1, "gpu-worker-1-1")] |}).
  pose (w1 := final (acquire_gpu_start world_C)).
  pose (w2 := final (acquire_gpu_start (released fr (after_draws 30 w1)))).
  pose (w3 := final (acquire_gpu_start (released fr (after_draws 31 w2)))).
  assert (acquire_gpu_start world_C
          = (Ret fr, events (acquire_gpu_start world_C), w1)) as Hs1
    by (vm_compute; reflexivity).
  assert (acquire_gpu_start (released fr (after_draws 30 w1))
          = (Ret fr, events (acquire_gpu_start (released fr (after_draws 30 w1))), w2))
    as Hs2 by (vm_compute; reflexivity).
  assert (acquire_gpu_start (released fr (after_draws 31 w2))
          = (Ret fr, events (acquire_gpu_start (released fr (after_draws 31 w2))), w3))
    as Hs3 by (vm_compute; reflexivity).
  destruct (flows_hold_one_lease_at_a_time world_C) as (_ & Hsingle & Htask).
  rewrite Hs1 in Hsingle, Htask. cbv beta iota in Hsingle, Htask.
  rewrite Hs2 in Htask. cbv beta iota in Htask.
  rewrite Hs3 in Htask. cbv beta iota in Htask.
  destruct Hsingle as (t & Heq & Hm & _). destruct Htask as (t' & Heq' & Hm').
  rewrite Heq, Heq'. unfold outcome, events, final. cbn [fst snd].
  split; (split; [reflexivity|]; split; [assumption|]); vm_compute; reflexivity.
Defined.

(** * Further properties *)

Example words_ex :
  PyStr.words "Inst libc6 [2.39-0ubuntu8] (2.39-0ubuntu8.1 Ubuntu:24.04 [amd64])  "
  = ["Inst"; "libc6"; "[2.39-0ubuntu8]"; "(2.39-0ubuntu8.1"; "Ubuntu:24.04"; "[amd64])"].
Proof. vm_compute. reflexivity. Qed.

Example system_update_packages_ex :
  get_system_update_packages
    ("Reading package lists..." +:+ String newline
     ("Inst zlib1g [1] (2 Ubuntu [amd64])" +:+ String newline
      ("Inst libc6 [1] (2 Ubuntu [amd64])" +:+ String newline
       ("Conf libc6 (2 Ubuntu [amd64])" +:+ String newline
        ("Inst zlib1g [1] (2 Ubuntu [amd64])" +:+ String newline
         ("Inst " +:+ String newline ""))))))
  = ["libc6"; "zlib1g"].
Proof. vm_compute. reflexivity. Qed.

Example deb_package_dependencies_ex :
  get_deb_package_dependencies
    ("rsync" +:+ String newline
     ("  Depends: libc6" +:+ String newline
      (" |Depends: libssl3" +:+ String newline
       ("libc6" +:+ String newline
        ("<debconf-2.0>" +:+ String newline
         ("libc6:i386" +:+ String newline
          ("libc6" +:+ String newline "")))))))
  = ["libc6"; "libc6"; "rsync"].
Proof. vm_compute. reflexivity. Qed.

(** ** More on the configuration *)

Module ConfigFacts.
Import PyStr PyStrFacts.

Lemma split_nonempty sep s : split sep s <> [].
Proof.
  destruct s as [|c s]; simpl; [done|].
  destruct (Ascii.eqb c sep); [done|]. by destruct (split sep s).
Qed.

(** One field more than separators. *)
Lemma split_length sep s : length (split sep s) = S (count_char sep s).
Proof.
  induction s as [|c s IH]; simpl; [done|].
  destruct (Ascii.eqb c sep); simpl; [by rewrite IH|].
  destruct (split sep s) as [|h t] eqn:Hs; [by destruct (split_nonempty sep s)|].
  simpl in *. done.
Qed.

(** Cutting at a separator cuts the list of fields. *)
Lemma split_app_sep sep a b :
  split sep (a +:+ String sep b) = split sep a ++ split sep b.
Proof.
  induction a as [|c a IH]; simpl.
  - by rewrite Ascii.eqb_refl.
  - destruct (Ascii.eqb c sep); [by rewrite IH|].
    rewrite IH.
    destruct (split sep a) as [|h t] eqn:Hs; [by destruct (split_nonempty sep a)|].
    done.
Qed.

Lemma parse_ids_Ret toks zs :
  parse_ids toks = Ret zs -> Forall2 (fun t z => int t = Some z) toks zs.
Proof.
  revert zs. induction toks as [|t toks IH]; intros zs; simpl.
  - intros [= <-]. constructor.
  - destruct (int t) as [z|] eqn:Ht; [|done].
    destruct (parse_ids toks) as [zs'|]; [|done].
    intros [= <-]. constructor; [done|]. by apply IH.
Qed.

Lemma int_leading_space s : int (String " " s) = int s.
Proof. reflexivity. Qed.

Lemma split_join_spaced toks :
  toks <> [] ->
  Forall (fun t => all_chars not_comma t = true) toks ->
  split "," (join ", " toks)
  = match toks with
    | [] => []
    | t :: r => t :: map (String " ") r
    end.
Proof.
  induction toks as [|t toks IH]; [done|].
  intros _ Hall. inversion Hall as [|? ? Ht Hts]; subst.
  destruct toks as [|t' toks].
  - simpl. by apply split_no_comma.
  - change (join ", " (t :: t' :: toks))
      with (t +:+ String "," (String " " (join ", " (t' :: toks)))).
    assert (split "," (join ", " (t' :: toks)) = t' :: map (String " ") toks)
      as Hrec by by apply IH.
    rewrite split_app_sep, (split_no_comma t Ht).
    remember (join ", " (t' :: toks)) as j eqn:Hj.
    simpl. by rewrite Hrec.
Qed.

End ConfigFacts.

(** X1. When loading succeeds the list is never empty: it has one id per
    comma-separated field of the value, each being what [int] makes of its
    field, in order. *)
Theorem gpu_ids_one_per_field (environ : gmap string string) (zs : list Z) :
  get_worker_gpu_ids environ = Ret zs ->
  exists raw,
    environ !! "WORKER_GPU_IDS" = Some raw /\ raw <> ""
    /\ Forall2 (fun t z => PyStr.int t = Some z) (PyStr.split "," raw) zs
    /\ length zs = S (PyStr.count_char "," raw)
    /\ zs <> [].
Proof.
  unfold get_worker_gpu_ids.
  destruct (environ !! "WORKER_GPU_IDS") as [raw|]; simpl; [|done].
  destruct (decide (raw = "")) as [|Hne]; [done|].
  intros Hp%ConfigFacts.parse_ids_Ret.
  exists raw. split; [done|]. split; [done|]. split; [done|].
  assert (length zs = S (PyStr.count_char "," raw)) as Hlen.
  { by rewrite <- (Forall2_length _ _ _ Hp), ConfigFacts.split_length. }
  split; [done|]. by destruct zs.
Qed.

Lemma gpu_ids_one_per_field_witness :
  exists raw,
    ({[ "WORKER_GPU_IDS" := " 7 ,+1_0,-3" ]} : gmap string string)
      !! "WORKER_GPU_IDS" = Some raw
    /\ length [7; 10; -3] = S (PyStr.count_char "," raw).
Proof.
  destruct (gpu_ids_one_per_field {[ "WORKER_GPU_IDS" := " 7 ,+1_0,-3" ]} [7; 10; -3])
    as (raw & H1 & _ & _ & H4 & _).
  - vm_compute. reflexivity.
  - exists raw. split; [exact H1|exact H4].
Defined.

(** X2. A value with an empty field is rejected with a [ValueError]: a
    comma at the start, a comma at the end, or two commas in a row. *)
Theorem gpu_ids_empty_field_rejected (environ : gmap string string) (a b : string) :
  forall raw,
    raw = "," +:+ b \/ raw = a +:+ "," \/ raw = a +:+ ",," +:+ b ->
    exists e,
      get_worker_gpu_ids (<["WORKER_GPU_IDS" := raw]> environ) = Raise e
      /\ is_value_error e = true.
Proof.
  intros raw Hraw.
  assert (raw <> "" /\ In "" (PyStr.split "," raw)) as [Hne Hin].
  { destruct Hraw as [-> | [-> | ->]].
    - split; [done|]. simpl. by left.
    - split; [by destruct a|].
      change (a +:+ ",") with (a +:+ String "," "").
      rewrite ConfigFacts.split_app_sep. apply in_or_app. right. by left.
    - split; [by destruct a|].
      change (a +:+ ",," +:+ b) with (a +:+ String "," (String "," b)).
      rewrite ConfigFacts.split_app_sep. apply in_or_app. right. simpl. by left. }
  unfold get_worker_gpu_ids. rewrite lookup_insert_eq. simpl.
  destruct (decide (raw = "")); [done|].
  destruct (parse_ids_reject _ _ Hin eq_refl) as [t' ->].
  eexists. split; reflexivity.
Qed.

Lemma gpu_ids_empty_field_rejected_witness :
  exists e,
    get_worker_gpu_ids {[ "WORKER_GPU_IDS" := "0,1," ]} = Raise e
    /\ is_value_error e = true.
Proof.
  apply (gpu_ids_empty_field_rejected ∅ "0,1" "" "0,1,").
  right. left. reflexivity.
Defined.

(** X3. Blanks after the commas do no harm: a value written as decimal
    integers separated by a comma and a space loads as those integers,
    provided each is within the digit limit of [int]. *)
Theorem gpu_ids_spaced_list (environ : gmap string string) (zs : list Z) :
  zs <> [] ->
  Forall (fun z => Z.abs z < 10 ^ Z.of_nat PyStr.max_str_digits) zs ->
  get_worker_gpu_ids
    (<["WORKER_GPU_IDS" := PyStr.join ", " (map PyStr.str zs)]> environ) = Ret zs.
Proof.
  intros Hne Hcap. unfold get_worker_gpu_ids.
  rewrite lookup_insert_eq. simpl.
  assert (map PyStr.str zs <> []) as Hne' by by destruct zs.
  assert (Forall (fun t => PyStr.all_chars PyStr.not_comma t = true)
            (map PyStr.str zs)) as Hnc.
  { apply Forall_map, Forall_forall. intros z _. apply PyStrFacts.str_no_comma. }
  destruct (decide (PyStr.join ", " (map PyStr.str zs) = "")) as [Hempty|_].
  - exfalso. destruct zs as [|z zs]; [done|].
    pose proof (PyStrFacts.str_nonempty z) as Hz.
    simpl in Hempty. destruct zs; simpl in *.
    + done.
    + destruct (PyStr.str z); done.
  - rewrite ConfigFacts.split_join_spaced by done.
    destruct zs as [|z zs]; [done|]. simpl.
    inversion Hcap as [|? ? Hz Hzs]; subst.
    rewrite (PyStrFacts.int_str z Hz).
    assert (parse_ids (map (String " ") (map PyStr.str zs)) = Ret zs) as ->; [|done].
    apply parse_ids_Forall2. clear -Hzs.
    induction Hzs as [|z' zs Hz' _ IH]; constructor; [|done].
    rewrite ConfigFacts.int_leading_space. by apply PyStrFacts.int_str.
Qed.

Lemma gpu_ids_spaced_list_witness :
  PyStr.join ", " (map PyStr.str [2; 0; 1]) = "2, 0, 1"
  /\ get_worker_gpu_ids {[ "WORKER_GPU_IDS" := "2, 0, 1" ]} = Ret [2; 0; 1].
Proof.
  split; [reflexivity|].
  apply (gpu_ids_spaced_list ∅ [2; 0; 1]); [discriminate|].
  repeat constructor.
Defined.

(** ** Limit names *)

Lemma append_dash_inj (w1 w2 d1 d2 : string) :
  PyStr.all_chars (fun c => negb (Ascii.eqb c "-")) d1 = true ->
  PyStr.all_chars (fun c => negb (Ascii.eqb c "-")) d2 = true ->
  w1 +:+ String "-" d1 = w2 +:+ String "-" d2 ->
  w1 = w2 /\ d1 = d2.
Proof.
  intros Hd1 Hd2. revert w2.
  assert (forall w d d', PyStr.all_chars (fun c => negb (Ascii.eqb c "-")) d = true ->
            d <> w +:+ String "-" d') as Hno.
  { intros w d d' Hd ->. rewrite PyStrFacts.all_chars_app in Hd.
    apply andb_true_iff in Hd as [_ Hd]. simpl in Hd. done. }
  induction w1 as [|c w1 IH]; intros [|c2 w2]; simpl.
  - by intros [= ->].
  - intros [= <- Heq]. by destruct (Hno w2 d1 d2 Hd1).
  - intros [= -> Heq]. by destruct (Hno w1 d2 d1 Hd2).
  - intros [= -> Heq]. destruct (IH w2 Heq) as [-> ->]. done.
Qed.

(** X4. For ids that are not negative, different worker and GPU pairs are
    given different limit names. *)
Theorem limit_name_injective (w1 w2 : string) (g1 g2 : Z) :
  0 <= g1 -> 0 <= g2 ->
  (w1, g1) <> (w2, g2) -> limit_name w1 g1 <> limit_name w2 g2.
Proof.
  intros Hg1 Hg2 Hne. unfold limit_name. simpl. intros [= Heq].
  destruct (PyStrFacts.str_shape g1) as (ds1 & Hdig1 & _ & _ & Hs1).
  destruct (PyStrFacts.str_shape g2) as (ds2 & Hdig2 & _ & _ & Hs2).
  destruct (decide (g1 < 0)); [lia|]. destruct (decide (g2 < 0)); [lia|].
  assert (forall c, PyStr.is_digit c = true -> negb (Ascii.eqb c "-") = true)
    as Hnd.
  { intros c Hc. apply negb_true_iff, Ascii.eqb_neq. intros ->. by vm_compute in Hc. }
  destruct (append_dash_inj w1 w2 (PyStr.str g1) (PyStr.str g2)) as [-> Hstr].
  - rewrite Hs1. by apply (PyStrFacts.all_chars_impl _ _ ds1 Hnd).
  - rewrite Hs2. by apply (PyStrFacts.all_chars_impl _ _ ds2 Hnd).
  - exact Heq.
  - apply Hne. f_equal. unfold PyStr.str in Hstr. by apply (inj pretty) in Hstr.
Qed.

Lemma limit_name_injective_witness :
  limit_name "worker-1" 0 <> limit_name "worker" 10.
Proof.
  apply (limit_name_injective "worker-1" "worker" 0 10); [lia|lia|discriminate].
Defined.

(** X5. With a negative id the name is ambiguous: worker [w-] with GPU [p]
    and worker [w] with GPU [-p] are given the same limit. *)
Theorem limit_name_negative_id_collides (w : string) (p : positive) :
  limit_name (w +:+ "-") (Z.pos p) = limit_name w (Z.neg p)
  /\ (w +:+ "-", Z.pos p) <> (w, Z.neg p).
Proof.
  split; [|by intros [= _ ?]].
  unfold limit_name, PyStr.str.
  change (pretty (Z.neg p)) with ("-" +:+ pretty (Z.pos p)).
  by rewrite !PyStrFacts.app_assoc_str.
Qed.

(** ** More on the acquisition scope *)

Section ScopeExtras.

Context {L : Type} `{!LimiterClient L} {py : Interpreter}.

Implicit Types (w : World L) (l : L) (fr : Frame) (t : list event).

(** A run of the loop that yields passed over contended candidates only. *)
Lemma probe_loop_ret_contended worker cands : forall w fr t w',
  probe_loop worker cands w = (Ret fr, t, w') ->
  exists pre l1,
    cands = pre ++ (fr_gpu fr, fr_name fr) :: fr_rest fr
    /\ contended (map snd pre) (limiter w) = Some l1
    /\ try_acquire (fr_name fr) 1 probe_timeout_ms l1 = (None, limiter w').
Proof.
  induction cands as [|[g n] rest IH]; intros w fr t w'; [done|].
  rewrite probe_loop_cons.
  destruct (try_acquire n 1 probe_timeout_ms (limiter w)) as [[e|] l] eqn:Hacq.
  - destruct (is_contention e) eqn:He; [|done].
    destruct (probe_loop worker rest (set_limiter l w)) as [[r t'] w''] eqn:Hloop.
    intros ?; simplify_eq.
    destruct (IH _ _ _ _ Hloop) as (pre & l1 & -> & Hc & Hg).
    exists ((g, n) :: pre), l1. simpl. by rewrite Hacq, He.
  - intros ?; simplify_eq. by exists [], (limiter w).
Qed.

(** X6. The lease is always bound to a configured id, the first one that
    could be had: when [acquire_gpu] yields, the ids declared before the
    yielded one were all answered by contention exceptions and its own slot
    was obtained. *)
Theorem yielded_gpu_is_first_free w fr t0 w0 :
  acquire_gpu_start w = (Ret fr, t0, w0) ->
  exists ids pre post l1,
    get_worker_gpu_ids (environ w) = Ret ids
    /\ ids = pre ++ fr_gpu fr :: post
    /\ fr_name fr = limit_name (fr_worker fr) (fr_gpu fr)
    /\ fr_rest fr = limit_names (fr_worker fr) post
    /\ contended (map (limit_name (fr_worker fr)) pre) (limiter w) = Some l1
    /\ try_acquire (fr_name fr) 1 probe_timeout_ms l1 = (None, limiter w0).
Proof.
  intros Hstart.
  pose proof (acquire_gpu_start_name _ _ _ _ Hstart) as Hname.
  revert Hstart.
  unfold acquire_gpu_start, bind, lift, raise, ret, logger_info, emit.
  destruct (environ w !! "WORKER_ID") as [worker|]; [|done].
  destruct (get_worker_gpu_ids (environ w)) as [ids|]; [|done]. simpl.
  destruct (probe_loop worker (limit_names worker ids) w) as [[r t] w'] eqn:Hloop.
  intros ?; simplify_eq.
  destruct (probe_loop_ret _ _ _ _ _ _ Hloop) as (_ & _ & Hw & _).
  destruct (probe_loop_ret_contended _ _ _ _ _ _ Hloop) as (pre & l1 & Hc & Hcont & Hg).
  unfold limit_names in Hc.
  apply map_eq_app in Hc as (ipre & irest & -> & Hpre & Hrest).
  apply map_eq_cons in Hrest as (g & ipost & -> & [= Hg1 Hn] & Hpost).
  exists (ipre ++ g :: ipost), ipre, ipost, l1.
  rewrite <- Hpre, map_map in Hcont. simpl in Hcont.
  subst worker. rewrite <- Hg1. by repeat split.
Qed.

Lemma scope_raise_not_contention {A} (body : Z -> M L A) w e t w' :
  with_acquire_gpu body w = (Raise e, t, w') -> is_contention e = false.
Proof.
  unfold with_acquire_gpu.
  destruct (acquire_gpu_start w) as [[[fr|e0] t0] w0] eqn:Hstart.
  - destruct (body (fr_gpu fr) w0) as [[[a|e1] tb] w1]; [done|].
    rewrite exit_raising_unfold.
    destruct (is_contention e1) eqn:He; [|by intros ?; simplify_eq].
    destruct (probe_loop _ _ _) as [[[fr'|x] t'] w''] eqn:Hloop;
      intros ?; simplify_eq; [done|].
    by destruct (probe_loop_raise _ _ _ _ _ _ Hloop).
  - intros ?; simplify_eq. by destruct (acquire_gpu_start_raise _ _ _ _ Hstart).
Qed.

(** X7. Whatever the protected block does, neither of the two contention
    exceptions ever comes out of the scope. *)
Theorem scope_never_raises_contention {A} (body : Z -> M L A) w :
  match outcome (with_acquire_gpu body w) with
  | Raise e => is_contention e = false
  | Ret _ => True
  end.
Proof.
  destruct (with_acquire_gpu body w) as [[[a|e] t] w'] eqn:Heq; [done|].
  by apply (scope_raise_not_contention body w e t w').
Qed.

(** X8. The scope is transparent for a block that returns or raises
    anything but a contention exception: the value or the exception of the
    block is the one of the scope, the slot is released once, and nothing is
    probed after the block.  The release is logged only when the block
    returned. *)
Theorem scope_passes_block_outcome {A} (body : Z -> M L A) w fr t0 w0 :
  acquire_gpu_start w = (Ret fr, t0, w0) ->
  match body (fr_gpu fr) w0 with
  | (Ret a, tb, w1) =>
      with_acquire_gpu body w
      = (Ret a,
         t0 ++ tb ++ [EvLog (LogReleased (fr_gpu fr) (fr_worker fr));
                      EvRelease (fr_name fr) 1],
         released fr w1)
  | (Raise e, tb, w1) =>
      is_contention e = false ->
      with_acquire_gpu body w
      = (Raise e, t0 ++ tb ++ [EvRelease (fr_name fr) 1], released fr w1)
  end.
Proof.
  intros Hstart. unfold with_acquire_gpu. rewrite Hstart.
  destruct (body (fr_gpu fr) w0) as [[[a|e] tb] w1]; [done|].
  intros He. by rewrite exit_raising_unfold, He.
Qed.

(** X9. Over a whole scope, the probes made on entry and those made after a
    block that raised are together a prefix of the configured list: no
    candidate is probed twice, and at most as many probes as candidates are
    made. *)
Theorem scope_probes_each_candidate_once w worker ids fr t0 w0 :
  environ w !! "WORKER_ID" = Some worker ->
  get_worker_gpu_ids (environ w) = Ret ids ->
  acquire_gpu_start w = (Ret fr, t0, w0) ->
  forall e w1,
    probed_names (t0 ++ (exit_raising fr e w1).1.2)
      `prefix_of` map (limit_name worker) ids
    /\ (length (probed_names (t0 ++ (exit_raising fr e w1).1.2)) <= length ids)%nat.
Proof.
  intros Hw Hids Hstart e w1.
  destruct (acquire_gpu_start_ret _ _ _ _ Hstart)
    as (_ & Hw' & ids' & pre & Hids' & Hc & Hp).
  assert (fr_worker fr = worker) as Hfw by congruence.
  assert (ids' = ids) as -> by congruence.
  assert (probed_names (t0 ++ (exit_raising fr e w1).1.2)
            `prefix_of` map (limit_name worker) ids) as Hpre.
  { rewrite <- limit_names_snd, <- Hfw, Hc, probed_names_app, Hp, map_app.
    rewrite <- app_assoc. apply prefix_app. simpl. apply prefix_cons.
    rewrite exit_raising_unfold.
    destruct (is_contention e); [|apply prefix_nil].
    pose proof (probe_loop_prefix (fr_worker fr) (fr_rest fr) (released fr w1)) as Hl.
    destruct (probe_loop _ _ _) as [[[fr'|x] t] w']; unfold events in Hl; simpl in *.
    - rewrite probed_names_app.
      destruct closes_unstopped_generator; simpl; by rewrite app_nil_r.
    - done. }
  split; [done|]. apply prefix_length in Hpre. by rewrite length_map in Hpre.
Qed.

(** X17. Acquiring and releasing touch nothing but the limiter: entering
    the scope and leaving it, after a block that returned or raised, leave
    the environment and the random source as they were and print nothing. *)
Theorem scope_uses_no_randomness w fr e w1 :
  (environ (final (acquire_gpu_start w)) = environ w
   /\ rng (final (acquire_gpu_start w)) = rng w
   /\ printed (events (acquire_gpu_start w)) = [])
  /\ (environ (final (exit_normal fr w1)) = environ w1
      /\ rng (final (exit_normal fr w1)) = rng w1
      /\ printed (events (exit_normal fr w1)) = [])
  /\ (environ (exit_raising fr e w1).2 = environ w1
      /\ rng (exit_raising fr e w1).2 = rng w1
      /\ printed (exit_raising fr e w1).1.2 = []).
Proof.
  split; [|split].
  - destruct (acquire_gpu_start_quiet w) as (_ & Hp & He & Hr). by repeat split.
  - by repeat split.
  - rewrite exit_raising_unfold.
    destruct (is_contention e); [|by repeat split].
    destruct (probe_loop_frame (fr_worker fr) (fr_rest fr) (released fr w1))
      as [He Hr].
    destruct (probe_loop_quiet (fr_worker fr) (fr_rest fr) (released fr w1))
      as [_ Hp].
    destruct (probe_loop _ _ _) as [[[fr'|x] t] w']; unfold final, events in *;
      [destruct closes_unstopped_generator|];
      simpl in *; rewrite ?printed_app, ?Hp; by repeat split.
Qed.

End ScopeExtras.

Lemma yielded_gpu_is_first_free_witness :
  exists ids pre post l1,
    get_worker_gpu_ids (environ world_A) = Ret ids
    /\ ids = pre ++ 1 :: post
    /\ contended (map (limit_name "worker-1") pre) (limiter world_A) = Some l1.
Proof.
  pose (fr := {| fr_worker := "worker-1"; fr_gpu := 1;
                 fr_name := "gpu-worker-1-1"; fr_rest := [] |}).
  assert (acquire_gpu_start world_A
          = (Ret fr, events (acquire_gpu_start world_A),
             final (acquire_gpu_start world_A))) as Hstart
    by (vm_compute; reflexivity).
  destruct (yielded_gpu_is_first_free world_A fr _ _ Hstart)
    as (ids & pre & post & l1 & H1 & H2 & _ & _ & H5 & _).
  exists ids, pre, post, l1. split; [exact H1|]. split; [exact H2|exact H5].
Defined.

Lemma scope_passes_block_outcome_witness :
  outcome (with_acquire_gpu
             (fun _ => raise (OtherException "ZeroDivisionError") : M _ unit) world_A)
  = Raise (OtherException "ZeroDivisionError").
Proof.
  pose (fr := {| fr_worker := "worker-1"; fr_gpu := 1;
                 fr_name := "gpu-worker-1-1"; fr_rest := [] |}).
  assert (acquire_gpu_start world_A
          = (Ret fr, events (acquire_gpu_start world_A),
             final (acquire_gpu_start world_A))) as Hstart
    by (vm_compute; reflexivity).
  pose proof (scope_passes_block_outcome
                (fun _ => raise (OtherException "ZeroDivisionError") : M _ unit)
                world_A fr _ _ Hstart) as H.
  simpl in H. rewrite (H eq_refl). reflexivity.
Defined.

Lemma scope_probes_each_candidate_once_witness :
  (length (probed_names
     (events (acquire_gpu_start world_C)
      ++ (exit_raising
            {| fr_worker := "worker-1"; fr_gpu := 0%Z;
               fr_name := "gpu-worker-1-0";
               fr_rest := [(1%Z, "gpu-worker-1-1")] |}
            AcquireConcurrencySlotTimeoutError
            (final (acquire_gpu_start world_C))).1.2)) <= 2)%nat.
Proof.
  assert (environ world_C !! "WORKER_ID" = Some "worker-1") as Hw
    by (vm_compute; reflexivity).
  assert (get_worker_gpu_ids (environ world_C) = Ret [0; 1]) as Hids
    by (vm_compute; reflexivity).
  assert (acquire_gpu_start world_C
          = (Ret {| fr_worker := "worker-1"; fr_gpu := 0;
                    fr_name := "gpu-worker-1-0";
                    fr_rest := [(1, "gpu-worker-1-1")] |},
             events (acquire_gpu_start world_C),
             final (acquire_gpu_start world_C))) as Hstart
    by (vm_compute; reflexivity).
  exact (proj2 (scope_probes_each_candidate_once world_C "worker-1" [0; 1] _ _ _
                  Hw Hids Hstart AcquireConcurrencySlotTimeoutError
                  (final (acquire_gpu_start world_C)))).
Defined.


(** ** More on the work units *)

Section UnitExtras.

Context {L : Type} `{!LimiterClient L}.

Implicit Types (w : World L) (t : list event).

Lemma work_sum_bounds n ds c : 0 <= work_sum n ds c <= 10 * Z.of_nat n.
Proof.
  revert c. induction n as [|n IH]; intros c; simpl work_sum; [lia|].
  specialize (IH (S c)).
  pose proof (Z.mod_pos_bound (Z.of_nat (ds c)) 11). lia.
Qed.

Lemma simulate_loop_value n : forall acc w,
  exists t w',
    simulate_loop n acc w
    = (Ret (acc + work_sum n (draws (rng w)) (cursor (rng w))), t, w')
    /\ drawn n w w' /\ slept t = Z.of_nat n /\ quiet t.
Proof.
  induction n as [|n IH]; intros acc w.
  - exists [], w. simpl. rewrite Z.add_0_r.
    split; [reflexivity|]. split; [apply drawn_refl|].
    split; [reflexivity|]. split; reflexivity.
  - simpl simulate_loop. unfold randint, sleep, emit, bind, rng_next.
    cbn [fst snd].
    set (w1 := set_rng _ w). set (x := (0 + _ `mod` (10 - 0 + 1))).
    destruct (IH (acc + x) w1) as (t & w' & -> & Hd & Hs & Hq).
    exists ([] ++ [EvSleep 1] ++ t), w'. split; [|split; [|split]].
    + f_equal. f_equal. f_equal. subst x w1. simpl.
      change (10 - 0 + 1) with 11. lia.
    + destruct Hd as (H1 & H2 & H3 & H4). subst w1. simpl in *.
      split; [exact H1|]. split; [exact H2|]. split; [exact H3|]. lia.
    + simpl. rewrite Hs. lia.
    + destruct Hq as [Hm Hp]. split; simpl; assumption.
Qed.

Lemma simulate_work_value g secs w :
  exists t w',
    _simulate_work g secs w = (Ret (work_value (Z.to_nat secs) (rng w)), t, w')
    /\ drawn (Z.to_nat secs) w w'
    /\ slept t = Z.max 0 secs
    /\ quiet t.
Proof.
  destruct (simulate_loop_value (Z.to_nat secs) 0 w) as (t & w' & Heq & Hd & Hs & Hq).
  exists (EvLog (LogSimulating g secs) :: t), w'.
  unfold _simulate_work, bind, logger_info, emit. rewrite Heq.
  split; [reflexivity|]. split; [exact Hd|]. split.
  - simpl. rewrite Hs. lia.
  - destruct Hq. split; assumption.
Qed.

(** X10. What [_simulate_work] returns is the sum of as many draws as it
    was given seconds, hence between 0 and ten times that number; it sleeps
    one second per draw, so that with no seconds to spend it returns 0
    without drawing or sleeping.  The GPU id plays no part. *)
Theorem simulate_work_bounds g secs w :
  exists t w',
    _simulate_work g secs w = (Ret (work_value (Z.to_nat secs) (rng w)), t, w')
    /\ 0 <= work_value (Z.to_nat secs) (rng w) <= 10 * Z.max 0 secs
    /\ drawn (Z.to_nat secs) w w'
    /\ slept t = Z.max 0 secs.
Proof.
  destruct (simulate_work_value g secs w) as (t & w' & Heq & Hd & Hs & _).
  exists t, w'. split; [exact Heq|].
  pose proof (work_sum_bounds (Z.to_nat secs) (draws (rng w)) (cursor (rng w))) as Hb.
  unfold work_value. split; [lia|]. split; assumption.
Qed.

(** X11. [pre_processing] returns the value of its simulated work: a number
    between 0 and ten times the seconds, 300 by default, that depends on the
    random source and not on the GPU it is given; a unit start is the only
    milestone it leaves and it prints nothing. *)
Theorem pre_processing_result g secs w :
  exists t w',
    pre_processing g secs w = (Ret (work_value (Z.to_nat secs) (rng w)), t, w')
    /\ 0 <= work_value (Z.to_nat secs) (rng w) <= 10 * Z.max 0 secs
    /\ milestones t = [EvLog (LogStarted "pre_processing" g)]
    /\ printed t = []
    /\ slept t = Z.max 0 secs.
Proof.
  destruct (simulate_work_value g secs w) as (t & w' & Heq & Hd & Hs & Hm & Hp).
  exists (EvLog (LogStarted "pre_processing" g)
          :: t ++ [EvLog (LogFinished "pre_processing" g)]), w'.
  unfold pre_processing, bind, logger_info, emit, ret. rewrite Heq.
  split; [cbn [app]; rewrite ?app_nil_r; reflexivity|].
  pose proof (work_sum_bounds (Z.to_nat secs) (draws (rng w)) (cursor (rng w))) as Hb.
  unfold work_value. split; [lia|].
  unfold milestones. cbn [List.filter is_milestone printed slept].
  fold (milestones (t ++ [EvLog (LogFinished "pre_processing" g)])).
  rewrite milestones_app, printed_app, Hm, Hp.
  split; [reflexivity|]. split; [reflexivity|].
  clear -Hs. revert Hs. generalize (Z.max 0 secs). induction t as [|[] t IH];
    simpl; intros z Hz; try (apply IH; exact Hz); [lia|].
  specialize (IH (z - seconds)). lia.
Qed.

(** X12. [predict] returns one of the six labels, the one picked by the
    draw that follows the draws of its simulated work; neither the GPU id
    nor the data it is given has any influence on it. *)
Theorem predict_ignores_gpu_and_data g data secs w :
  In (label_at (Z.to_nat secs) (rng w)) labels
  /\ exists t w',
       predict g data secs w = (Ret (label_at (Z.to_nat secs) (rng w)), t, w')
       /\ drawn (S (Z.to_nat secs)) w w'
       /\ printed t = [].
Proof.
  split; [apply label_at_labels|].
  destruct (simulate_work_value g secs w) as (t & w' & Heq & Hd & Hs & Hm & Hp).
  exists (EvLog (LogStarted "prediction" g)
          :: t ++ [EvLog (LogFinished "prediction" g)]),
         (set_rng (rng_next (rng w')).2 w').
  unfold predict, bind, logger_info, emit, choice, rng_next. rewrite Heq.
  destruct Hd as (H1 & H2 & H3 & H4).
  split; [|split].
  - unfold label_at. rewrite <- H3, <- H4. cbn [app]. rewrite ?app_nil_r.
    reflexivity.
  - unfold drawn, set_rng. cbn [environ limiter rng draws cursor snd].
    rewrite H1, H2, H3, H4. repeat split.
  - cbn [printed]. rewrite printed_app, Hp. reflexivity.
Qed.

End UnitExtras.

(** ** More on the flows *)

Section FlowExtras.

Context {L : Type} `{!LimiterClient L} {py : Interpreter}.

Implicit Types (w : World L) (t : list event).

(** X13. The whole-pipeline flow fails exactly when its one acquisition
    fails: it then ends with the error of the acquisition, having done
    nothing else; once the slot is obtained the run completes. *)
Theorem single_flow_fails_only_at_acquisition w :
  match acquire_gpu_start w with
  | (Raise e, t0, w0) =>
      single_acquisition_prediction_flow w = (Raise e, t0, w0)
  | (Ret _, _, _) =>
      outcome (single_acquisition_prediction_flow w) = Ret PyNone
  end.
Proof.
  rewrite single_flow_pipeline. unfold bind, with_acquire_gpu.
  destruct (acquire_gpu_start w) as [[[fr|e] t0] w0]; [|reflexivity].
  destruct (pipeline_spec (fr_gpu fr) w0) as (a & tb & w1 & -> & _ & _ & _ & ->).
  reflexivity.
Qed.

(** X14. A per-task run that fails has printed nothing and ends with an
    exception that is not a contention exception; the units it started, the
    first or the first two, each ran between the obtaining and the release
    of a slot, and post-processing was not started. *)
Theorem task_flow_failure w :
  match task_acquisition_prediction_flow w with
  | (Raise e, t, _) =>
      is_contention e = false
      /\ printed t = []
      /\ (milestones t = []
          \/ (exists n1 g1,
                milestones t
                = [EvAcquire n1 1 probe_timeout_ms None;
                   EvLog (LogStarted "pre_processing" g1);
                   EvRelease n1 1])
          \/ (exists n1 g1 n2 g2,
                milestones t
                = [EvAcquire n1 1 probe_timeout_ms None;
                   EvLog (LogStarted "pre_processing" g1);
                   EvRelease n1 1;
                   EvAcquire n2 1 probe_timeout_ms None;
                   EvLog (LogStarted "prediction" g2);
                   EvRelease n2 1]))
  | (Ret _, _, _) => True
  end.
Proof.
  unfold task_acquisition_prediction_flow.
  destruct (scope_spec (fun g => pre_processing g 30) 30
              (fun g => [EvLog (LogStarted "pre_processing" g)])
              (fun _ => []) (fun _ _ => True) w)
    as [(e & t1 & w1 & Heq1 & Hm1 & Hp1)
       |(g1 & n1 & data & t1 & w1 & Heq1 & Hm1 & Hp1 & _)].
  { intros g w0. destruct (pre_processing_spec g w0) as (v & tb & w' & ? & ? & ? & ?).
    exists v, tb, w'. repeat (split; [assumption|]). exact I. }
  { rewrite (bind_raise_eq _ _ _ _ _ _ Heq1).
    split; [exact (scope_raise_not_contention _ _ _ _ _ Heq1)|].
    split; [exact Hp1|]. left. exact Hm1. }
  rewrite (bind_ret_eq _ _ _ _ _ _ Heq1).
  destruct (scope_spec (fun g => predict g data 30) 31
              (fun g => [EvLog (LogStarted "prediction" g)])
              (fun _ => []) (fun r a => a = label_at 30 r) w1)
    as [(e & t2 & w2 & Heq2 & Hm2 & Hp2)
       |(g2 & n2 & pred & t2 & w2 & Heq2 & Hm2 & Hp2 & _)].
  { intros g w0. destruct (predict_spec g data w0) as (tb & w' & ? & ? & ? & ?).
    exists (label_at 30 (rng w0)), tb, w'. repeat (split; [assumption|]).
    reflexivity. }
  { rewrite (bind_raise_eq _ _ _ _ _ _ Heq2).
    split; [exact (scope_raise_not_contention _ _ _ _ _ Heq2)|].
    rewrite printed_app, milestones_app, Hp1, Hp2, Hm1, Hm2.
    split; [reflexivity|]. right. left. exists n1, g1. reflexivity. }
  rewrite (bind_ret_eq _ _ _ _ _ _ Heq2).
  destruct (scope_spec (fun g => post_processing g pred 30) 30
              (fun g => [EvLog (LogStarted "post_processing" g)])
              (fun _ => [PyStr.upper pred]) (fun _ a => a = PyNone) w2)
    as [(e & t3 & w3 & Heq3 & Hm3 & Hp3)
       |(g3 & n3 & a & t3 & w3 & Heq3 & _)].
  { intros g w0. destruct (post_processing_spec g pred w0) as (tb & w' & ? & ? & ? & ?).
    exists PyNone, tb, w'. repeat (split; [assumption|]). reflexivity. }
  { rewrite (bind_raise_eq _ _ _ _ _ _ Heq3).
    split; [exact (scope_raise_not_contention _ _ _ _ _ Heq3)|].
    rewrite !printed_app, !milestones_app, Hp1, Hp2, Hp3, Hm1, Hm2, Hm3.
    split; [reflexivity|]. right. right. exists n1, g1, n2, g2. reflexivity. }
  rewrite (bind_ret_eq _ _ _ _ _ _ Heq3). exact I.
Qed.

End FlowExtras.

(** A per-task run whose second acquisition finds every GPU taken. *)
Example task_flow_second_scope_fails :
  let run := task_acquisition_prediction_flow
    {| environ := env_worker_1;
       limiter := [None; Some AcquireConcurrencySlotTimeoutError;
                   Some ConcurrencySlotAcquisitionError];
       rng := rng_0 |} in
  outcome run = Raise (RuntimeError "No available GPUs on worker worker-1")
  /\ milestones (events run)
     = [EvAcquire "gpu-worker-1-0" 1 100 None;
        EvLog (LogStarted "pre_processing" 0);
        EvRelease "gpu-worker-1-0" 1].
Proof. vm_compute. split; reflexivity. Qed.

(** ** The readers of the bundle script *)

Module BundleFacts.
Import PyStr PyStrFacts.






End BundleFacts.


